(** * Email capture and retrieval: the mail sink and the MCP helper functions

    A shallow embedding of
    - [docs/examples/demo_apps/email_mcp/mail_sink/server.py]   (module [Sink])
    - [docs/examples/demo_apps/email_mcp/mcp_server/utils.py]   (module [Utils])

    Python values are modelled by the data they carry: [str] as [string],
    [bytes] as [list byte], the result of [json.loads] as [json], a
    directory tree as a finite map from paths to nodes.  A call that may
    raise returns a [result].  Functions of the Python standard library and
    of aiosmtpd that the code calls but does not define are fields of the
    class [Runtime]. *)

From Stdlib Require Import ZArith NArith List String Ascii Bool Lia.
From Stdlib.Strings Require Import Byte.
From stdpp Require Import base option list gmap strings sorting pretty.

Set Warnings "-register-all".

Local Open Scope string_scope.
Local Open Scope Z_scope.

(** ** Python values *)

Module Py.

Definition bytes := list byte.

(** Exceptions, by class. *)
Inductive exn :=
| FileNotFoundError (msg : string)
| IsADirectoryError
| AttributeError
| TypeError
| ValueError
| LookupError
| RuntimeError (msg : string)
| OtherError (msg : string).

(** The outcome of a call: a value, or an exception on its way up. *)
Inductive result (A : Type) :=
| Ok (a : A)
| Raise (e : exn).
Arguments Ok {A} a.
Arguments Raise {A} e.

Definition bind {A B} (r : result A) (k : A → result B) : result B :=
  match r with
  | Ok a => k a
  | Raise e => Raise e
  end.

Notation "'let*' x ':=' c 'in' k" := (bind c (fun x => k))
  (at level 10, x name, c at level 100, k at level 200).
Notation "'let*' ' p ':=' c 'in' k" := (bind c (fun x => match x with p => k end))
  (at level 10, p strict pattern, c at level 100, k at level 200).

(** [try: c  except Exception: h] *)
Definition try_except {A} (c : result A) (h : result A) : result A :=
  match c with
  | Ok a => Ok a
  | Raise _ => h
  end.

Definition is_ok {A} (r : result A) : bool :=
  match r with Ok _ => true | Raise _ => false end.

(** What [json.loads] produces (and [json.dumps] consumes). A [dict] keeps
    its keys in insertion order. Numbers are integers: the code looks at
    a number only to ask whether it is zero. *)
Inductive json :=
| JNull
| JBool (b : bool)
| JInt (z : Z)
| JStr (s : string)
| JArr (items : list json)
| JObj (fields : list (string * json)).

(** Truthiness, as [if x:] and [x or y] see it. *)
Definition truthy (v : json) : bool :=
  match v with
  | JNull => false
  | JBool b => b
  | JInt z => negb (z =? 0)
  | JStr s => negb (String.eqb s "")
  | JArr l => match l with [] => false | _ => true end
  | JObj l => match l with [] => false | _ => true end
  end.

Fixpoint assoc (k : string) (l : list (string * json)) : option json :=
  match l with
  | [] => None
  | (k', v) :: l' => if String.eqb k k' then Some v else assoc k l'
  end.

(** [r.get(k)] and [r.get(k, d)]: only a [dict] has the method. *)
Definition dict_get_default (r : json) (k : string) (d : json) : result json :=
  match r with
  | JObj fs => Ok (default d (assoc k fs))
  | _ => Raise AttributeError
  end.

Definition dict_get (r : json) (k : string) : result json :=
  dict_get_default r k JNull.

(** [x or d] *)
Definition or_else (x d : json) : json := if truthy x then x else d.

(** [sep.join(xs)] on strings. *)
Fixpoint join (sep : string) (xs : list string) : string :=
  match xs with
  | [] => ""
  | [x] => x
  | x :: xs' => x ++ sep ++ join sep xs'
  end.

(** [needle in hay] on strings: some suffix of [hay] starts with [needle]. *)
Fixpoint str_contains (needle hay : string) : bool :=
  String.prefix needle hay ||
  match hay with
  | EmptyString => false
  | String _ hay' => str_contains needle hay'
  end.

(** [l[:k]] with Python's reading of a negative bound. *)
Definition slice_to {A} (k : Z) (l : list A) : list A :=
  if k <? 0 then take (length l - Z.to_nat (- k)) l
  else take (Z.to_nat k) l.

(** [b[:n]] for a large non-negative literal [n], counted in binary. *)
Fixpoint take_N {A} (n : N) (l : list A) : list A :=
  match l with
  | [] => []
  | x :: l' => if (n =? 0)%N then [] else x :: take_N (N.pred n) l'
  end.

(** A stable sort: [insert_by le x l] puts [x] ahead of the first element
    it may precede, so elements that compare equal keep their order.
    [sorted(xs)] is [sort_by] with the order of the elements;
    [xs.sort(key=k, reverse=True)] is [sort_by] with [k y <= k x]. *)
Fixpoint insert_by {A} (le : A → A → bool) (x : A) (l : list A) : list A :=
  match l with
  | [] => [x]
  | y :: l' => if le x y then x :: y :: l' else y :: insert_by le x l'
  end.

Definition sort_by {A} (le : A → A → bool) (l : list A) : list A :=
  foldr (insert_by le) [] l.

(** [str(e)] *)
Definition exn_str (e : exn) : string :=
  match e with
  | FileNotFoundError m => m
  | IsADirectoryError => "Is a directory"
  | AttributeError => "attribute error"
  | TypeError => "type error"
  | ValueError => "value error"
  | LookupError => "unknown encoding"
  | RuntimeError m => m
  | OtherError m => m
  end.

(** [s.endswith(suf)] *)
Definition ends_with (suf s : string) : bool :=
  String.prefix (String.rev suf) (String.rev s).

(** The characters of a string, each as a string. *)
Fixpoint chars (s : string) : list string :=
  match s with
  | EmptyString => []
  | String a s' => String a "" :: chars s'
  end.

(** [d[k] = v] on a [dict]: in place when the key is there, else at the end. *)
Fixpoint assoc_set (k : string) (v : json) (l : list (string * json))
  : list (string * json) :=
  match l with
  | [] => [(k, v)]
  | (k', v') :: l' =>
      if String.eqb k k' then (k, v) :: l' else (k', v') :: assoc_set k v l'
  end.

(** [mapM] for [result]: left to right, stopping at the first exception. *)
Fixpoint traverse {A B} (f : A → result B) (l : list A) : result (list B) :=
  match l with
  | [] => Ok []
  | x :: l' => let* y := f x in let* ys := traverse f l' in Ok (y :: ys)
  end.

(** [[x for x in l if p(x)]] where [p] may raise. *)
Fixpoint filter_r {A} (p : A → result bool) (l : list A) : result (list A) :=
  match l with
  | [] => Ok []
  | x :: l' =>
      let* b := p x in
      let* ys := filter_r p l' in
      Ok (if b then x :: ys else ys)
  end.

End Py.

Import Py.

(** ** Parsed messages ([email.message.Message]) *)

Module Mime.

(** What the accessors of one MIME part answer. *)
Record part_view := {
  headers : list (string * string);       (* header fields, in order *)
  content_type : string;                  (* get_content_type() *)
  content_disposition : option string;    (* get_content_disposition() *)
  filename : option string;               (* get_filename() *)
  content_charset : option string;        (* get_content_charset() *)
  content : result string;                (* get_content() *)
}.

(** A part is a leaf, with its payload as transferred ([encoded]) and what
    [get_payload(decode=True)] makes of it, or a container of parts. *)
Inductive Message :=
| Leaf (v : part_view) (encoded : string) (decoded : result bytes)
| Multipart (v : part_view) (parts : list Message).

Definition view (m : Message) : part_view :=
  match m with
  | Leaf v _ _ => v
  | Multipart v _ => v
  end.

Definition is_multipart (m : Message) : bool :=
  match m with
  | Leaf _ _ _ => false
  | Multipart _ _ => true
  end.

(** [get_payload(decode=True)]: [None] for a container. *)
Definition get_payload_decode (m : Message) : result (option bytes) :=
  match m with
  | Leaf _ _ d => let* b := d in Ok (Some b)
  | Multipart _ _ => Ok None
  end.

(** [msg.walk()]: the part itself, then its sub-parts, depth first. *)
Fixpoint walk (m : Message) : list Message :=
  match m with
  | Leaf _ _ _ => [m]
  | Multipart _ ps => m :: flat_map walk ps
  end.

End Mime.

Import Mime.

(** ** The file system *)

Inductive node :=
| File (data : bytes)
| Dir.

Abbreviation fs := (gmap string node).

Definition path_exists (s : fs) (p : string) : bool := bool_decide (is_Some (s !! p)).

Definition is_file (s : fs) (p : string) : bool :=
  match s !! p with
  | Some (File _) => true
  | _ => false
  end.

Definition read_bytes (s : fs) (p : string) : result bytes :=
  match s !! p with
  | Some (File d) => Ok d
  | Some Dir => Raise IsADirectoryError
  | None => Raise (FileNotFoundError p)
  end.

Definition write_bytes (p : string) (d : bytes) (s : fs) : fs := <[p := File d]> s.

(** [Path(s)]: the empty string names the current directory. *)
Definition Path (s : string) : string := if String.eqb s "" then "." else s.

(** [bool(p)] for a [Path]: the class defines neither [__bool__] nor
    [__len__], so every instance is true. *)
Definition Path_bool (p : string) : bool := true.

(** [dir / name]: an absolute [name] replaces [dir]. *)
Definition path_join (dir name : string) : string :=
  if String.prefix "/" name then name else dir ++ "/" ++ name.

(** ** Library functions the code calls *)

Class Runtime := {
  (** [str.lower], [str.strip] *)
  lower : string → string;
  strip : string → string;
  (** [str(make_header(decode_header(v)))] *)
  decode_rfc2047 : string → result string;
  (** [b.decode(enc, errors="replace")] for an encoding other than UTF-8:
      the decoder of a known codec, none for an unknown one *)
  codec : string → option (bytes → string);
  (** [b.decode("utf-8", errors="replace")] *)
  utf8_replace : bytes → string;
  (** [json.loads(path.read_text(encoding="utf-8"))] on the file's bytes *)
  json_loads : bytes → result json;
  (** [json.dumps(v, indent=2)] encoded as [write_text] does *)
  json_dumps : json → result bytes;
  (** [datetime.fromisoformat(s).timestamp()], in microseconds *)
  iso_timestamp : string → result Z;
  (** [Path(p).suffix], [Path(p).name] *)
  path_suffix : string → string;
  path_name : string → string;
  (** [Path(p).expanduser()]: raises when the home directory of a [~user]
      prefix cannot be determined *)
  expanduser : string → result string;
  (** [msg[name] = value] on the [EmailMessage] being built: the policy
      refuses a value of more than one line *)
  set_header : string → string → result unit;
  (** [msg.set_content(text)], [msg.add_alternative(html, subtype="html")]
      and [msg.add_attachment(data, maintype=.., subtype=.., filename=..)] *)
  set_content : string → result unit;
  add_alternative : string → result unit;
  add_attachment : bytes → string → string → string → result unit;
  (** [mimetypes.guess_type(name)[0]] *)
  guess_type : string → option string;
  (** [message.as_bytes(policy=policy.default)] and
      [BytesParser(policy=policy.default).parsebytes] *)
  as_bytes : Message → bytes;
  parsebytes : bytes → Message;
  (** aiosmtpd's [AsyncMessage.prepare_message]: the object it builds from
      the peer, the envelope and the DATA content of a session, and hands
      to [handle_message] *)
  prepare_message : string → string → list string → bytes → Message;
  (** the directories [STORAGE_DIR] (sink) and [MAIL_DIR] (helpers) *)
  STORAGE_DIR : string;
  MAIL_DIR : string;
}.

(** [b.decode(enc, errors="replace")] *)
Definition decode_replace `{Runtime} (enc : string) (b : bytes) : result string :=
  if String.eqb enc "utf-8" then Ok (utf8_replace b)
  else match codec enc with
       | Some f => Ok (f b)
       | None => Raise LookupError
       end.

(** [x or d] on an optional string *)
Definition str_or (x : option string) (d : string) : string :=
  match x with
  | Some s => if String.eqb s "" then d else s
  | None => d
  end.

(** ** mail_sink/server.py *)

Module Sink.
Section Sink.
Context `{Runtime}.

Definition _decode_hdr (value : option string) : option string :=
  match value with
  | None => None
  | Some v =>
      if String.eqb v "" then Some v
      else match decode_rfc2047 v with
           | Ok s => Some s
           | Raise _ => Some v
           end
  end.

(** [msg.get_all(name, [])] and [msg.get(name)]: header names compare
    without regard to case. *)
Definition get_all (msg : Message) (name : string) : list string :=
  map snd (List.filter (λ kv, String.eqb (lower kv.1) (lower name)) (headers (view msg))).

Definition get (msg : Message) (name : string) : option string :=
  head (get_all msg name).

(** [s.split(c)] for a one-character separator. *)
Fixpoint split_on (c : ascii) (s : string) : list string :=
  match s with
  | EmptyString => [""]
  | String a s' =>
      if Ascii.eqb a c then "" :: split_on c s'
      else match split_on c s' with
           | [] => [String a ""]
           | w :: ws => String a w :: ws
           end
  end.

Definition nonempty (s : string) : bool := negb (String.eqb s "").

Definition _headers_list (msg : Message) (name : string) : list string :=
  let vals := get_all msg name in
  let decoded := map (λ v, _decode_hdr (Some v)) vals in
  fold_left
    (λ out v,
       match v with
       | None => out
       | Some v =>
           if nonempty v then
             let parts := List.filter nonempty (map strip (split_on "," v)) in
             (out ++ match parts with [] => [v] | _ => parts end)%list
           else out
       end)
    decoded [].

(** The [try: get_content()  except: try: get_payload(decode=True).decode(..)]
    ladder: the text of a part, or the exception of the inner attempt. *)
Definition part_content (part : Message) : result string :=
  try_except (content (view part))
    (let* raw := get_payload_decode part in
     match raw with
     | None => Raise AttributeError
     | Some b => decode_replace (str_or (content_charset (view part)) "utf-8") b
     end).

(** One round of the loop over [msg.walk()]: the new [text] and [html]. *)
Definition bodies_step (part : Message) (text html : option string)
  : option string * option string :=
  let ctype := content_type (view part) in
  if String.eqb ctype "text/plain" && bool_decide (text = None) then
    match part_content part with
    | Ok s => (Some s, html)
    | Raise _ => (text, html)
    end
  else if String.eqb ctype "text/html" && bool_decide (html = None) then
    match part_content part with
    | Ok s => (text, Some s)
    | Raise _ => (text, html)
    end
  else (text, html).

Fixpoint bodies_loop (parts : list Message) (text html : option string)
  : option string * option string :=
  match parts with
  | [] => (text, html)
  | part :: rest =>
      let disp := lower (str_or (content_disposition (view part)) "") in
      if String.eqb disp "attachment" then bodies_loop rest text html
      else
        let '(text', html') := bodies_step part text html in
        if bool_decide (text' ≠ None) && bool_decide (html' ≠ None)
        then (text', html')
        else bodies_loop rest text' html'
  end.

Definition _best_effort_bodies (msg : Message) : option string * option string :=
  if is_multipart msg then bodies_loop (walk msg) None None
  else
    let ctype := content_type (view msg) in
    let payload := match part_content msg with Ok s => Some s | Raise _ => None end in
    if String.eqb ctype "text/plain" then (payload, None)
    else if String.eqb ctype "text/html" then (None, payload)
    else (None, None).

Definition jopt (o : option string) : json :=
  match o with Some s => JStr s | None => JNull end.

Definition is_attachment (part : Message) : bool :=
  let disp := lower (str_or (content_disposition (view part)) "") in
  String.eqb disp "attachment" || nonempty (str_or (filename (view part)) "").

(** The [size] computed under [try], [None] when the attempt raises. *)
Definition payload_size (part : Message) : option Z :=
  match get_payload_decode part with
  | Ok raw => Some (Z.of_nat (length (default [] raw)))
  | Raise _ => None
  end.

Definition attachment_entry (part : Message) : json :=
  JObj [ ("filename", JStr (str_or (filename (view part)) ""));
         ("content_type", JStr (content_type (view part)));
         ("size_bytes", JInt (default 0 (payload_size part))) ].

Definition _attachment_metadata (msg : Message) : list json :=
  fold_left
    (λ out part, if is_attachment part then (out ++ [attachment_entry part])%list else out)
    (walk msg) [].

Definition eml_path (uid : string) : string := path_join STORAGE_DIR (uid ++ ".eml").
Definition json_path (uid : string) : string := path_join STORAGE_DIR (uid ++ ".json").

Definition record_of (uid now : string) (parsed : Message) : json :=
  let '(text_body, html_body) := _best_effort_bodies parsed in
  let attachments := _attachment_metadata parsed in
  JObj [ ("id", JStr uid);
         ("stored_at", JStr now);
         ("subject", jopt (_decode_hdr (get parsed "Subject")));
         ("from", jopt (_decode_hdr (get parsed "From")));
         ("to", JArr (map JStr (_headers_list parsed "To")));
         ("cc", JArr (map JStr (_headers_list parsed "Cc")));
         ("bcc", JArr (map JStr (_headers_list parsed "Bcc")));
         ("date", jopt (_decode_hdr (get parsed "Date")));
         ("message_id", jopt (get parsed "Message-ID"));
         ("in_reply_to", jopt (_decode_hdr (get parsed "In-Reply-To")));
         ("references", jopt (_decode_hdr (get parsed "References")));
         ("text", jopt text_body);
         ("html", jopt html_body);
         ("attachments", JArr attachments);
         ("raw_path", JStr (eml_path uid)) ].

(** A write to the store, as one step a reader can observe. *)
Inductive fs_op := WriteBytes (path : string) (data : bytes).

Definition apply_op (s : fs) (op : fs_op) : fs :=
  match op with WriteBytes p d => write_bytes p d s end.

Definition run_ops (s : fs) (ops : list fs_op) : fs := fold_left apply_op ops s.

(** [SinkHandler.handle_message], given the uuid and the clock reading it
    draws: the writes it performs, in order, and how it ends. *)
Definition handle_message (uid now : string) (message : Message)
  : list fs_op * result unit :=
  let raw_bytes := as_bytes message in
  let parsed := parsebytes raw_bytes in
  let w_raw := WriteBytes (eml_path uid) raw_bytes in
  match json_dumps (record_of uid now parsed) with
  | Ok txt => ([w_raw; WriteBytes (json_path uid) txt], Ok ())
  | Raise e => ([w_raw], Raise e)
  end.

(** The handler as the SMTP runtime drives it ([AsyncMessage.handle_DATA]):
    the session's DATA content goes through [prepare_message] first. *)
Definition handle_DATA (uid now peer mail_from : string) (rcpt_tos : list string)
    (data : bytes) : list fs_op * result unit :=
  handle_message uid now (prepare_message peer mail_from rcpt_tos data).

(** The store as the sink can leave it, or show it to a reader: each
    delivery contributes its writes in order, up to any point. *)
Inductive reachable : fs → Prop :=
| reach_empty : reachable ∅
| reach_capture s uid now message ops :
    reachable s →
    ops `prefix_of` (handle_message uid now message).1 →
    reachable (run_ops s ops).

End Sink.
End Sink.

(** ** mcp_server/utils.py *)

Module Utils.

(** *** Sending *)

Record SendResult := {
  success : bool;
  message_id : option string;
  error : option string;
}.

Record attachment := {
  att_data : bytes;
  att_maintype : string;
  att_subtype : string;
  att_filename : string;
}.

(** The content [set_content] / [add_alternative] leave in the message. *)
Inductive body :=
| PlainBody (text : string)
| AlternativeBody (text html : string).

Record EmailMessage := {
  msg_from : string;
  msg_to : string;
  msg_cc : option string;
  msg_subject : string;
  msg_date : string;
  msg_message_id : string;
  msg_body : body;
  msg_attachments : list attachment;
}.

(** The SMTP peer: how opening the connection and handing over a message
    turn out. *)
Record network := {
  connect : string → Z → result unit;
  send_message : EmailMessage → string → list string → result unit;
  (** the QUIT sent on leaving the [with] block: it raises on a reply
      other than 221; a connection already lost is passed over *)
  quit : result unit;
}.

(** What went over the network. *)
Inductive net_event :=
| SmtpConnect (host : string) (port : Z)
| SmtpSend (msg : EmailMessage) (from_addr : string) (to_addrs : list string)
| SmtpQuit.

Section Utils.
Context `{Runtime}.

(** [ctype.split("/", 1)] unpacked into two names. *)
Fixpoint split_slash (s : string) : result (string * string) :=
  match s with
  | EmptyString => Raise ValueError
  | String a s' =>
      if Ascii.eqb a "/" then Ok ("", s')
      else let* '(m, t) := split_slash s' in Ok (String a m, t)
  end.

Fixpoint attach_loop (s : fs) (paths : list string) (atts : list attachment)
  : result (list attachment) :=
  match paths with
  | [] => Ok atts
  | p :: rest =>
      if String.eqb p "" then attach_loop s rest atts
      else
        let* fp := expanduser (Path p) in
        if negb (path_exists s fp) || negb (is_file s fp)
        then Raise (FileNotFoundError ("Attachment not found: " ++ p))
        else
          let* data := read_bytes s fp in
          let* '(maintype, subtype) :=
            match guess_type (path_name fp) with
            | Some ctype =>
                if String.eqb ctype "" then Ok ("application", "octet-stream")
                else split_slash ctype
            | None => Ok ("application", "octet-stream")
            end in
          let* _ := add_attachment data maintype subtype (path_name fp) in
          attach_loop s rest
            (atts ++ [ {| att_data := data; att_maintype := maintype;
                          att_subtype := subtype; att_filename := path_name fp |} ])%list
  end.

(** [_attach_files]: the attachments added to the message. *)
Definition _attach_files (s : fs) (atts : list attachment) (paths : option (list string))
  : result (list attachment) :=
  match paths with
  | None => Ok atts
  | Some ps => attach_loop s ps atts
  end.

Definition str_truthy (o : option string) : bool :=
  match o with
  | Some s => negb (String.eqb s "")
  | None => false
  end.

Definition list_truthy {A} (o : option (list A)) : bool :=
  match o with
  | Some (_ :: _) => true
  | _ => false
  end.

(** The headers and the body of the message, lines 65 to 83: each
    assignment and each content call can raise, and none is guarded. *)
Definition set_headers_and_body (date mid : string)
    (from_addr : string) (to_addrs : list string) (subject : string)
    (text_body html_body : option string) (cc_addrs : option (list string))
  : result unit :=
  let* _ := set_header "From" from_addr in
  let* _ := set_header "To" (join ", " to_addrs) in
  let* _ := if list_truthy cc_addrs
            then set_header "Cc" (join ", " (default [] cc_addrs)) else Ok () in
  let* _ := set_header "Subject" subject in
  let* _ := set_header "Date" date in
  let* _ := set_header "Message-ID" mid in
  if str_truthy text_body && str_truthy html_body then
    let* _ := set_content (default "" text_body) in
    add_alternative (default "" html_body)
  else if str_truthy html_body then
    let* _ := set_content "This email contains HTML content." in
    add_alternative (default "" html_body)
  else set_content (str_or text_body "").

(** [send_email_smtp], given the file system, the peer, and the date and
    message id it generates: its outcome and its network traffic.  Only
    the SMTP dialogue is under [try]; leaving the [with] block sends QUIT,
    whose exception takes the place of one raised inside the block. *)
Definition send_email_smtp (s : fs) (net : network) (date mid : string)
    (from_addr : string) (to_addrs : list string) (subject : string)
    (text_body html_body : option string)
    (cc_addrs bcc_addrs attachments_paths : option (list string))
  : result SendResult * list net_event :=
  let cc := if list_truthy cc_addrs then Some (join ", " (default [] cc_addrs)) else None in
  let content :=
    if str_truthy text_body && str_truthy html_body
    then AlternativeBody (default "" text_body) (default "" html_body)
    else if str_truthy html_body
    then AlternativeBody "This email contains HTML content." (default "" html_body)
    else PlainBody (str_or text_body "") in
  match (let* _ := set_headers_and_body date mid from_addr to_addrs subject
                     text_body html_body cc_addrs in
         _attach_files s [] attachments_paths) with
  | Raise e => (Raise e, [])
  | Ok atts =>
      let msg := {| msg_from := from_addr; msg_to := join ", " to_addrs;
                    msg_cc := cc; msg_subject := subject; msg_date := date;
                    msg_message_id := mid; msg_body := content;
                    msg_attachments := atts |} in
      let recipients :=
        (to_addrs
           ++ (if list_truthy cc_addrs then default [] cc_addrs else [])
           ++ (if list_truthy bcc_addrs then default [] bcc_addrs else []))%list in
      let failed e := Ok {| success := false; message_id := None;
                            error := Some (exn_str e) |} in
      match connect net "127.0.0.1" 1025 with
      | Raise e => (failed e, [SmtpConnect "127.0.0.1" 1025])
      | Ok _ =>
          let trace := [SmtpConnect "127.0.0.1" 1025;
                        SmtpSend msg from_addr recipients; SmtpQuit] in
          match send_message net msg from_addr recipients, quit net with
          | Ok _, Ok _ =>
              (Ok {| success := true; message_id := Some mid; error := None |}, trace)
          | Raise e, Ok _ => (failed e, trace)
          | _, Raise e => (failed e, trace)
          end
      end
  end.

(** *** Listing and reading *)

(** [None] is [JNull], whether it is what the file holds or what the
    handler returns. *)
Definition _safe_load (s : fs) (path : string) : json :=
  match (let* b := read_bytes s path in json_loads b) with
  | Ok v => v
  | Raise _ => JNull
  end.

(** [name] matches [*.json] directly under [dir]. *)
Definition glob_match (dir path : string) : bool :=
  let pre := dir ++ "/" in
  String.prefix pre path &&
  (let name := String.substring (String.length pre) (String.length path) path in
   negb (str_contains "/" name) && ends_with ".json" name).

(** [sorted(MAIL_DIR.glob("*.json"))] *)
Definition glob_json (s : fs) : list string :=
  sort_by String.leb (List.filter (glob_match MAIL_DIR) (map fst (map_to_list s))).

(** The records the first loop of [list_emails_fs] keeps. *)
Definition load_records (s : fs) : list json :=
  omap (λ p, let data := _safe_load s p in
             if truthy data then Some data else None) (glob_json s).

Definition _parse_iso (v : json) : Z :=
  match v with
  | JStr str => match iso_timestamp str with Ok t => t | Raise _ => 0 end
  | _ => 0
  end.

Definition sort_key (r : json) : result Z :=
  let* v := dict_get_default r "stored_at" (JStr "") in Ok (_parse_iso v).

(** [recs.sort(key=..., reverse=True)]: the keys are computed first. *)
Definition sort_records (recs : list json) : result (list json) :=
  let* keyed := traverse (λ r, let* k := sort_key r in Ok (k, r)) recs in
  Ok (map snd (sort_by (λ a b, b.1 <=? a.1) keyed)).

(** [(v or "").lower()] *)
Definition lower_or_empty (v : json) : result string :=
  match or_else v (JStr "") with
  | JStr str => Ok (lower str)
  | _ => Raise AttributeError
  end.

Definition as_str (v : json) : result string :=
  match v with
  | JStr str => Ok str
  | _ => Raise TypeError
  end.

(** [" ".join(v or [])]: what iterating over [v] yields must be strings. *)
Definition join_items (v : json) : result string :=
  match or_else v (JArr []) with
  | JArr items => let* strs := traverse as_str items in Ok (join " " strs)
  | JStr str => Ok (join " " (chars str))
  | JObj fields => Ok (join " " (map fst fields))
  | _ => Raise TypeError
  end.

Definition hay (r : json) : result string :=
  let* v_subj := dict_get r "subject" in
  let* subj := lower_or_empty v_subj in
  let* v_frm := dict_get r "from" in
  let* frm := lower_or_empty v_frm in
  let* v_to := dict_get r "to" in
  let* to_joined := join_items v_to in
  let to := lower to_joined in
  let* v_text := dict_get r "text" in
  let* text := lower_or_empty v_text in
  Ok (join " | " [subj; frm; to; text]).

Definition summary (r : json) : result json :=
  let* v_id := dict_get r "id" in
  let* v_subject := dict_get r "subject" in
  let* v_from := dict_get r "from" in
  let* v_to := dict_get r "to" in
  let* v_date := dict_get r "date" in
  Ok (JObj [ ("id", v_id); ("subject", v_subject); ("from", v_from);
             ("to", v_to); ("date", v_date) ]).

Definition list_emails_fs (s : fs) (query : option string) (limit : Z)
  : result (list json) :=
  let recs := load_records s in
  let* recs := sort_records recs in
  let* recs :=
    if str_truthy query then
      let q := lower (default "" query) in
      filter_r (λ r, let* h := hay r in Ok (str_contains q h)) recs
    else Ok recs in
  traverse summary (slice_to (Z.max 1 limit) recs).

Definition _ALLOWED_CT : gset string :=
  {[ "text/plain"; "text/csv"; "application/json"; "application/yaml";
     "text/yaml"; "application/x-yaml" ]}.

Definition _ALLOWED_EXT : gset string :=
  {[ ".txt"; ".csv"; ".json"; ".yaml"; ".yml" ]}.

Definition _MAX_TEXT_BYTES : N := 512 * 1024.

Definition _is_allowed_attachment (part_filename : option string) (content_type : string)
  : bool :=
  if bool_decide (content_type ∈ _ALLOWED_CT) then true
  else if str_truthy part_filename then
    let ext := lower (path_suffix (default "" part_filename)) in
    if bool_decide (ext ∈ _ALLOWED_EXT) then true else false
  else false.

(** The [text] put into an entry: the preview decoded with the declared
    character set, or as UTF-8 when that attempt raises. *)
Definition preview_text (part : Message) (payload : bytes) : string :=
  let preview := take_N _MAX_TEXT_BYTES payload in
  match decode_replace (str_or (content_charset (view part)) "utf-8") preview with
  | Ok t => t
  | Raise _ => utf8_replace preview
  end.

Definition is_attachment (part : Message) : bool :=
  let disp := lower (str_or (content_disposition (view part)) "") in
  String.eqb disp "attachment" || str_truthy (filename (view part)).

(** The entry built for one attachment part. *)
Definition extract_entry (part : Message) : result json :=
  let fname := filename (view part) in
  let ctype := content_type (view part) in
  let* raw := get_payload_decode part in
  let payload := default [] raw in
  let entry := [ ("filename", JStr (str_or fname ""));
                 ("content_type", JStr ctype);
                 ("size_bytes", JInt (Z.of_nat (length payload))) ] in
  Ok (JObj (if _is_allowed_attachment fname ctype
            then (entry ++ [("text", JStr (preview_text part payload))])%list
            else entry)).

Fixpoint extract_loop (parts : list Message) (results : list json) : result (list json) :=
  match parts with
  | [] => Ok results
  | part :: rest =>
      if negb (is_attachment part) then extract_loop rest results
      else
        let* entry := extract_entry part in
        extract_loop rest (results ++ [entry])%list
  end.

Definition _extract_textual_attachments (s : fs) (eml_path : string) : result (list json) :=
  if negb (path_exists s eml_path) then Ok []
  else
    let* raw := read_bytes s eml_path in
    let msg := parsebytes raw in
    extract_loop (walk msg) [].

Definition error_obj (code message : string) : json :=
  JObj [ ("error", JObj [ ("code", JStr code); ("message", JStr message) ]) ].

(** [Path(v)] for a JSON value: only a string will do. *)
Definition Path_of (v : json) : result string :=
  match v with
  | JStr str => Ok (Path str)
  | _ => Raise TypeError
  end.

Definition get_email_fs (s : fs) (email_id : string) : result json :=
  let path := path_join MAIL_DIR (email_id ++ ".json") in
  if negb (path_exists s path)
  then Ok (error_obj "NOT_FOUND" ("Email id " ++ email_id ++ " not found"))
  else
    match _safe_load s path with
    | JNull => Ok (error_obj "READ_ERROR" ("Failed to read " ++ path_name path))
    | data =>
        let* v_raw := dict_get data "raw_path" in
        let* eml_path := Path_of (or_else v_raw (JStr "")) in
        let* enriched_attachments :=
          if Path_bool eml_path
          then let* l := _extract_textual_attachments s eml_path in Ok (JArr l)
          else let* v_att := dict_get data "attachments" in
               Ok (or_else v_att (JArr [])) in
        match data with
        | JObj fields => Ok (JObj (assoc_set "attachments" enriched_attachments fields))
        | _ => Raise TypeError
        end
    end.

End Utils.
End Utils.

(** ** A concrete runtime

    An instance of [Runtime] on which the functions above can be run:
    ASCII case folding and white space, a JSON printer with [json.loads]
    as its inverse on the values in [known_json], a message printer with
    [parsebytes] as its inverse on the messages in [known_messages], and
    [prepare_message] adding the three headers aiosmtpd adds. *)

Module Demo.

Definition nl : string := String (ascii_of_nat 10) "".
Definition dq : string := String (ascii_of_nat 34) "".

Definition lower_ascii (a : ascii) : ascii :=
  let n := nat_of_ascii a in
  if ((65 <=? n) && (n <=? 90))%nat then ascii_of_nat (n + 32) else a.

Fixpoint lower_str (s : string) : string :=
  match s with
  | EmptyString => EmptyString
  | String a s' => String (lower_ascii a) (lower_str s')
  end.

Definition is_space (a : ascii) : bool :=
  let n := nat_of_ascii a in
  ((n =? 32) || ((9 <=? n) && (n <=? 13)))%nat.

Fixpoint lstrip (s : string) : string :=
  match s with
  | EmptyString => EmptyString
  | String a s' => if is_space a then lstrip s' else s
  end.

Definition strip_str (s : string) : string :=
  String.rev (lstrip (String.rev (lstrip s))).

(** The text after the last ["/"]. *)
Fixpoint name_of (s : string) : string :=
  match s with
  | EmptyString => EmptyString
  | String a s' =>
      if str_contains "/" s then name_of s' else s
  end.

(** The text from the last ["."] of a name on, when that dot is neither
    its first nor its last character. *)
Fixpoint from_last_dot (s : string) : option string :=
  match s with
  | EmptyString => None
  | String a s' =>
      match from_last_dot s' with
      | Some t => Some t
      | None => if Ascii.eqb a "." then Some s else None
      end
  end.

Definition suffix_of (p : string) : string :=
  match name_of p with
  | EmptyString => ""
  | String a rest =>
      match from_last_dot rest with
      | Some t => if String.eqb t "." then "" else t
      | None => ""
      end
  end.

Fixpoint render (v : json) : string :=
  match v with
  | JNull => "null"
  | JBool b => if b then "true" else "false"
  | JInt z => pretty.pretty z
  | JStr s => dq ++ s ++ dq
  | JArr l => "[" ++ join ", " (map render l) ++ "]"
  | JObj fs =>
      "{" ++ join ", " (map (λ kv, let '(k, x) := kv in dq ++ k ++ dq ++ ": " ++ render x) fs)
          ++ "}"
  end.

Definition render_headers (hs : list (string * string)) : string :=
  join "" (map (λ kv, kv.1 ++ ": " ++ kv.2 ++ nl) hs).

Fixpoint render_message (m : Message) : string :=
  match m with
  | Leaf v enc _ => render_headers (headers v) ++ nl ++ enc
  | Multipart v ps =>
      render_headers (headers v) ++ nl ++
      join "" (map (λ p, "--part" ++ nl ++ render_message p ++ nl) ps)
  end.

Definition add_header (k x : string) (m : Message) : Message :=
  let upd v := {| headers := (headers v ++ [(k, x)])%list;
                  content_type := content_type v;
                  content_disposition := content_disposition v;
                  filename := filename v;
                  content_charset := content_charset v;
                  content := content v |} in
  match m with
  | Leaf v enc dec => Leaf (upd v) enc dec
  | Multipart v ps => Multipart (upd v) ps
  end.

Definition text_view (hs : list (string * string)) (ctype : string)
    (disp fname cs : option string) (c : result string) : part_view :=
  {| headers := hs; content_type := ctype; content_disposition := disp;
     filename := fname; content_charset := cs; content := c |}.

Definition empty_message : Message :=
  Leaf (text_view [] "text/plain" None None None (Ok "")) "" (Ok []).

(** A value [splitlines] cuts into more than one line: a line feed or a
    carriage return other than the one line end closing the value. *)
Definition has_line_break (s : string) : bool :=
  str_contains nl s || str_contains (String "013" "") s.

Definition more_than_one_line (value : string) : bool :=
  match String.rev value with
  | String a (String b rest) =>
      if Ascii.eqb a "010" && Ascii.eqb b "013" then has_line_break rest
      else if Ascii.eqb a "010" || Ascii.eqb a "013" then has_line_break (String b rest)
      else has_line_break (String a (String b rest))
  | _ => false
  end.

(** [expanduser]: a path without a leading tilde is left alone, [~] is
    the home directory of the demo user, any other [~user] is unknown. *)
Definition expand (p : string) : result string :=
  match p with
  | String "~" rest =>
      match rest with
      | EmptyString => Ok "/home/demo"
      | String "/" _ => Ok ("/home/demo" ++ rest)
      | _ => Raise (RuntimeError "Could not determine home directory.")
      end
  | _ => Ok p
  end.

Section Tables.
Variable known_json : list json.
Variable known_messages : list Message.
Variable known_times : list (string * Z).

Definition loads (b : bytes) : result json :=
  match List.find (λ v, String.eqb (render v) (string_of_list_byte b)) known_json with
  | Some v => Ok v
  | None => Raise ValueError
  end.

Definition parse (b : bytes) : Message :=
  default empty_message
    (List.find (λ m, String.eqb (render_message m) (string_of_list_byte b)) known_messages).

Definition timestamp (s : string) : result Z :=
  match List.find (λ kv, String.eqb kv.1 s) known_times with
  | Some kv => Ok kv.2
  | None => Raise ValueError
  end.

Definition runtime : Runtime := {|
  lower := lower_str;
  strip := strip_str;
  decode_rfc2047 := Ok;
  codec := λ enc,
    if String.eqb enc "latin-1" || String.eqb enc "us-ascii" || String.eqb enc "ascii"
    then Some string_of_list_byte else None;
  utf8_replace := string_of_list_byte;
  json_loads := loads;
  json_dumps := λ v, Ok (list_byte_of_string (render v));
  iso_timestamp := timestamp;
  path_suffix := suffix_of;
  path_name := name_of;
  expanduser := expand;
  set_header := λ _ value, if more_than_one_line value then Raise ValueError else Ok ();
  set_content := λ _, Ok ();
  add_alternative := λ _, Ok ();
  add_attachment := λ _ _ _ _, Ok ();
  guess_type := λ name,
    let ext := lower_str (suffix_of name) in
    if String.eqb ext ".json" then Some "application/json"
    else if String.eqb ext ".txt" then Some "text/plain"
    else None;
  as_bytes := λ m, list_byte_of_string (render_message m);
  parsebytes := parse;
  prepare_message := λ peer mail_from rcpt_tos data,
    add_header "X-RcptTo" (join ", " rcpt_tos)
      (add_header "X-MailFrom" mail_from
         (add_header "X-Peer" peer (parse data)));
  STORAGE_DIR := "/srv/mcp_mail";
  MAIL_DIR := "/srv/mcp_mail";
|}.

End Tables.

End Demo.

(** ** Sample data *)

Module Samples.
Import Demo.

Definition t_2024 : string := "2024-01-01T00:00:00+00:00".
Definition t_1969 : string := "1969-12-31T00:00:00+00:00".

Definition att1 : json :=
  JObj [ ("filename", JStr "data.json");
         ("content_type", JStr "application/json");
         ("size_bytes", JInt 5) ].

(** A stored record with one attachment, as the sink writes it. *)
Definition rec1_fields : list (string * json) :=
  [ ("id", JStr "m1"); ("stored_at", JStr t_2024);
    ("subject", JStr "Weekly Report"); ("from", JStr "ann@example.local");
    ("to", JArr [JStr "bob@example.local"]); ("cc", JArr []); ("bcc", JArr []);
    ("date", JStr "Mon, 01 Jan 2024 00:00:00 +0000"); ("message_id", JNull);
    ("in_reply_to", JNull); ("references", JNull);
    ("text", JStr "see attachment"); ("html", JNull);
    ("attachments", JArr [att1]);
    ("raw_path", JStr "/srv/mcp_mail/m1.eml") ].

Definition rec1 : json := JObj rec1_fields.

(** A record whose [stored_at] is not a date, and one stamped before 1970. *)
Definition rec_bad_stamp : json :=
  JObj [ ("id", JStr "a"); ("stored_at", JStr "not-a-date"); ("subject", JStr "A") ].

Definition rec_1969 : json :=
  JObj [ ("id", JStr "b"); ("stored_at", JStr t_1969); ("subject", JStr "B") ].

Definition known_json : list json := [rec1; rec_bad_stamp; rec_1969].

Definition known_times : list (string * Z) :=
  [ (t_2024, 1704067200000000); (t_1969, -86400000000) ].

(** A one-part message as it arrives, and a two-part message whose first
    text part names a character set no codec knows. *)
Definition wire_message : Message :=
  Leaf (text_view [("Subject", "hi")] "text/plain" None None None (Ok "body")) "body"
       (Ok (list_byte_of_string "body")).

Definition part_unknown_charset : Message :=
  Leaf (text_view [] "text/plain" None None (Some "x-unknown") (Raise LookupError))
       "first" (Ok (list_byte_of_string "first")).

Definition part_second : Message :=
  Leaf (text_view [] "text/plain" None None None (Ok "second"))
       "second" (Ok (list_byte_of_string "second")).

Definition html_part : Message :=
  Leaf (text_view [] "text/html" None None None (Ok "<p>second</p>"))
       "<p>second</p>" (Ok (list_byte_of_string "<p>second</p>")).

Definition two_text_parts : Message :=
  Multipart (text_view [] "multipart/mixed" None None None (Raise (OtherError "multipart")))
            [part_unknown_charset; part_second].

(** A named part without a disposition; its payload travels as base64. *)
Definition named_inline_part : Message :=
  Leaf (text_view [] "application/json" (Some "inline") (Some "data.JSON") None
          (Ok "hello"))
       "aGVsbG8=" (Ok (list_byte_of_string "hello")).

Definition known_messages : list Message := [wire_message; two_text_parts].

Definition rt : Runtime := runtime known_json known_messages known_times.

#[local] Existing Instance rt.

Definition file_of (v : json) : node := File (list_byte_of_string (render v)).

(** The metadata of [m1] without its raw artifact. *)
Definition store_raw_missing : fs := {[ "/srv/mcp_mail/m1.json" := file_of rec1 ]}.

Definition store_two_stamps : fs :=
  {[ "/srv/mcp_mail/a.json" := file_of rec_bad_stamp;
     "/srv/mcp_mail/b.json" := file_of rec_1969 ]}.

(** [m1] next to a metadata file that is not JSON. *)
Definition store_corrupt : fs :=
  {[ "/srv/mcp_mail/m1.json" := file_of rec1;
     "/srv/mcp_mail/zz.json" := File (list_byte_of_string "{not json") ]}.

(** A file system with one file to attach. *)
Definition store_with_report : fs :=
  {[ "/tmp/report.json" := File (list_byte_of_string "{}") ]}.

Definition report_attachment : Utils.attachment :=
  {| Utils.att_data := list_byte_of_string "{}";
     Utils.att_maintype := "application"; Utils.att_subtype := "json";
     Utils.att_filename := "report.json" |}.

(** A peer that accepts the connection and refuses the message. *)
Definition net_refuses : Utils.network :=
  {| Utils.connect := λ _ _, Ok ();
     Utils.send_message := λ _ _ _, Raise (OtherError "554 rejected");
     Utils.quit := Ok () |}.

Definition net_ok : Utils.network :=
  {| Utils.connect := λ _ _, Ok (); Utils.send_message := λ _ _ _, Ok ();
     Utils.quit := Ok () |}.

(** A message with a body part and a named part, and the entry the
    retrieval side builds for the named part. *)
Definition report_message : Message :=
  Multipart (text_view [("Subject", "Report"); ("To", "bob@example.local, carl@example.local")]
               "multipart/mixed" None None None (Raise (OtherError "multipart")))
            [part_second; named_inline_part].

Definition report_entry : json :=
  JObj [ ("filename", JStr "data.JSON");
         ("content_type", JStr "application/json");
         ("size_bytes", JInt 5);
         ("text", JStr "hello") ].

(** The record the sink stores for [report_message] under the id [u1]. *)
Definition captured_fields : list (string * json) :=
  [ ("id", JStr "u1"); ("stored_at", JStr t_2024);
    ("subject", JStr "Report"); ("from", JNull);
    ("to", JArr [JStr "bob@example.local"; JStr "carl@example.local"]);
    ("cc", JArr []); ("bcc", JArr []);
    ("date", JNull); ("message_id", JNull);
    ("in_reply_to", JNull); ("references", JNull);
    ("text", JStr "second"); ("html", JNull);
    ("attachments",
     JArr [ JObj [ ("filename", JStr "data.JSON");
                   ("content_type", JStr "application/json");
                   ("size_bytes", JInt 5) ] ]);
    ("raw_path", JStr "/srv/mcp_mail/u1.eml") ].

Definition captured_record : json := JObj captured_fields.

(** A record whose subject is a number. *)
Definition rec_number_subject : json :=
  JObj [ ("id", JStr "n"); ("stored_at", JStr t_1969); ("subject", JInt 5) ].

(** A runtime that also knows [report_message], the record stored for it,
    a JSON text that is no object and the record with a number for its
    subject. *)
Definition rt_report : Runtime :=
  runtime [rec1; rec_bad_stamp; rec_1969; captured_record; JArr [JInt 1];
           rec_number_subject]
          [report_message] known_times.

(** [m1] with its raw artifact, the serialised [report_message]. *)
Definition store_complete : fs :=
  {[ "/srv/mcp_mail/m1.json" := file_of rec1;
     "/srv/mcp_mail/m1.eml" := File (list_byte_of_string (render_message report_message)) ]}.

(** A record without [raw_path], read from the directory of the store. *)
Definition store_no_raw_path : fs :=
  {[ "/srv/mcp_mail/a.json" := file_of rec_bad_stamp; "." := Dir ]}.

(** A store with a raw artifact and nothing else. *)
Definition store_raw_only : fs := {[ "/srv/mcp_mail/m1.eml" := File [] ]}.

(** [m1] next to the record with a number for its subject. *)
Definition store_number_subject : fs :=
  {[ "/srv/mcp_mail/m1.json" := file_of rec1;
     "/srv/mcp_mail/n.json" := file_of rec_number_subject ]}.

(** [m1] next to a metadata file holding a JSON array. *)
Definition store_with_array : fs :=
  {[ "/srv/mcp_mail/m1.json" := file_of rec1;
     "/srv/mcp_mail/x.json" := file_of (JArr [JInt 1]) ]}.

End Samples.

(** ** Reference definitions

    What the loops are compared with. *)

Module Spec.
Section Spec.
Context `{Runtime}.

(** A part the body loop can take for [ctype]: not marked as attachment,
    of that content type, and with a content that decodes. *)
Definition eligible (ctype : string) (part : Message) : bool :=
  negb (String.eqb (lower (str_or (content_disposition (view part)) "")) "attachment")
  && String.eqb (content_type (view part)) ctype
  && is_ok (Sink.part_content part).

(** The content of the first eligible part, if any. *)
Definition first_body (ctype : string) (parts : list Message) : option string :=
  match List.find (eligible ctype) parts with
  | Some part =>
      match Sink.part_content part with
      | Ok str => Some str
      | Raise _ => None
      end
  | None => None
  end.

(** Records as the listing reads them. *)
Definition is_obj (r : json) : bool :=
  match r with JObj _ => true | _ => false end.

Definition field (k : string) (r : json) : json :=
  match r with JObj fs => default JNull (assoc k fs) | _ => JNull end.

Definition stored_at_of (r : json) : json :=
  match r with JObj fs => default (JStr "") (assoc "stored_at" fs) | _ => JStr "" end.

(** The sort key: the time stamp, or 0 when [stored_at] gives none. *)
Definition stored_key (r : json) : Z := Utils._parse_iso (stored_at_of r).

Definition summary_of (r : json) : json :=
  JObj [ ("id", field "id" r); ("subject", field "subject" r);
         ("from", field "from" r); ("to", field "to" r); ("date", field "date" r) ].

(** A record typed as the sink writes it: [subject], [from] and [text]
    are strings or null, [to] is a list of strings or null. *)
Definition is_str (v : json) : bool :=
  match v with JStr _ => true | _ => false end.

Definition opt_str_ok (v : json) : bool :=
  match v with JNull | JStr _ => true | _ => false end.

Definition str_list_ok (v : json) : bool :=
  match v with JNull => true | JArr l => forallb is_str l | _ => false end.

Definition well_formed (r : json) : bool :=
  is_obj r && opt_str_ok (field "subject" r) && opt_str_ok (field "from" r)
  && str_list_ok (field "to" r) && opt_str_ok (field "text" r).

Definition text_of (v : json) : string :=
  match v with JStr str => str | _ => "" end.

Definition texts_of (v : json) : list string :=
  match v with JArr l => map text_of l | _ => [] end.

(** The text a query is looked up in: subject, sender, the recipients
    joined by blanks, and the plain body, each in lower case. *)
Definition haystack (r : json) : string :=
  join " | " [ lower (text_of (field "subject" r));
               lower (text_of (field "from" r));
               lower (join " " (texts_of (field "to" r)));
               lower (text_of (field "text" r)) ].

(** The lower-cased query occurs in the haystack, letter for letter. *)
Definition matches (q : string) (r : json) : Prop :=
  ∃ pre post, haystack r = pre ++ lower q ++ post.

Definition hit (q : string) (r : json) : bool :=
  str_contains (lower q) (haystack r).

(** The order of the listing: the later stamp first. *)
Definition newest_first (a b : json) : bool := stored_key b <=? stored_key a.

(** The records a listing keeps for [query]. *)
Definition selected (query : option string) (recs : list json) : list json :=
  if Utils.str_truthy query then List.filter (hit (default "" query)) recs else recs.

(** What a listing asks of a record: an object, and for a search one
    whose searched fields are typed as the sink writes them. *)
Definition listable (query : option string) (r : json) : bool :=
  if Utils.str_truthy query then well_formed r else is_obj r.

(** What one path contributes to a message when it can be attached: the
    bytes of the file, its base name, and the guessed type split at the
    first slash, or the generic binary type when there is no guess. *)
Definition attached (s : fs) (p : string) (a : Utils.attachment) : Prop :=
  ∃ fp,
  expanduser (Path p) = Ok fp ∧
  read_bytes s fp = Ok (Utils.att_data a) ∧
  Utils.att_filename a = path_name fp ∧
  match guess_type (path_name fp) with
  | Some ctype =>
      if String.eqb ctype ""
      then Utils.att_maintype a = "application" ∧ Utils.att_subtype a = "octet-stream"
      else ctype = Utils.att_maintype a ++ "/" ++ Utils.att_subtype a ∧
           str_contains "/" (Utils.att_maintype a) = false
  | None => Utils.att_maintype a = "application" ∧ Utils.att_subtype a = "octet-stream"
  end.

(** An attachment entry without its inline text. *)
Definition base_entry (e : json) : json :=
  match e with
  | JObj fields => JObj (take 3 fields)
  | _ => e
  end.

(** The plain text and the HTML alternative of an outgoing message. *)
Definition body_text (b : Utils.body) : string :=
  match b with
  | Utils.PlainBody t => t
  | Utils.AlternativeBody t _ => t
  end.

Definition body_html (b : Utils.body) : option string :=
  match b with
  | Utils.PlainBody _ => None
  | Utils.AlternativeBody _ h => Some h
  end.

(** The path of an artifact of [uid] without its extension. *)
Definition stem (uid : string) : string :=
  if String.prefix "/" uid then uid else STORAGE_DIR ++ "/" ++ uid.

End Spec.
End Spec.

(** * Properties *)

(** ** Reading a message whose raw artifact is gone *)

Module UtilsGet.
Import Utils.

Lemma get_email_fs_raw_missing `{Runtime} (s : fs) email_id fields rawp :
  path_exists s (path_join MAIL_DIR (email_id ++ ".json")) = true →
  _safe_load s (path_join MAIL_DIR (email_id ++ ".json")) = JObj fields →
  assoc "raw_path" fields = Some (JStr rawp) →
  rawp ≠ "" →
  s !! rawp = None →
  get_email_fs s email_id = Ok (JObj (assoc_set "attachments" (JArr []) fields)).
Proof.
  intros Hex Hload Hraw Hne Hnone.
  unfold get_email_fs. rewrite Hex, Hload. simpl.
  unfold dict_get, dict_get_default. rewrite Hraw. simpl.
  assert (truthy (JStr rawp) = true) as Ht.
  { simpl. destruct (String.eqb_spec rawp ""); [congruence | done]. }
  unfold or_else. rewrite Ht. simpl.
  unfold Path. destruct (String.eqb_spec rawp ""); [congruence |].
  unfold _extract_textual_attachments, path_exists.
  rewrite Hnone. rewrite bool_decide_eq_false_2; [done |].
  intros [? ?]; discriminate.
Qed.

#[local] Existing Instance Samples.rt.

(** C1 (the code at the failing input): the metadata of [m1] is stored
    with one attachment entry and its raw artifact is gone; [get_email_fs]
    answers with the record and an empty attachment list, not with the
    entry captured at ingestion. *)
Theorem get_email_fs_raw_missing_empty_attachments :
  Samples.store_raw_missing !! "/srv/mcp_mail/m1.eml" = None ∧
  _safe_load Samples.store_raw_missing "/srv/mcp_mail/m1.json" = Samples.rec1 ∧
  dict_get Samples.rec1 "attachments" = Ok (JArr [Samples.att1]) ∧
  (let* r := get_email_fs Samples.store_raw_missing "m1" in dict_get r "attachments")
    = Ok (JArr []).
Proof.
  split; [by vm_compute |]. split; [by vm_compute |]. split; [by vm_compute |].
  rewrite (get_email_fs_raw_missing Samples.store_raw_missing "m1"
             Samples.rec1_fields "/srv/mcp_mail/m1.eml");
    [by vm_compute | by vm_compute | by vm_compute | by vm_compute | done | by vm_compute].
Qed.

End UtilsGet.

(** ** Sending with an attachment that is not there *)

Module UtilsSend.
Import Utils.

Section General.
Context `{Runtime}.

(** The loop over a list of paths in two stretches: the attachments of
    the first stretch are those the second starts from. *)
Lemma attach_loop_app (s : fs) (pre rest : list string) :
  ∀ atts,
    attach_loop s (pre ++ rest) atts
    = (let* atts' := attach_loop s pre atts in attach_loop s rest atts').
Proof.
  induction pre as [|q pre IH]; intros atts; [done |].
  cbn [app attach_loop]. destruct (String.eqb q ""); [apply IH |].
  destruct (expanduser (Path q)) as [fp|e]; [|done]. cbn [bind].
  destruct (negb (path_exists s fp) || negb (is_file s fp)); [done |].
  destruct (read_bytes s fp) as [d|e]; [|done]. cbn [bind].
  destruct (match guess_type (path_name fp) with
            | Some ctype =>
                if String.eqb ctype "" then Ok ("application", "octet-stream")
                else split_slash ctype
            | None => Ok ("application", "octet-stream")
            end) as [[mt st]|e]; [|done]. cbn [bind].
  destruct (add_attachment d mt st (path_name fp)) as [[]|e]; [|done]. cbn [bind].
  apply IH.
Qed.

(** At a non-empty path that names no regular file the loop raises: the
    exception of the expansion, or the not-found error naming the path. *)
Lemma attach_loop_missing (s : fs) p ps atts :
  p ≠ "" →
  (∀ fp, expanduser (Path p) = Ok fp → is_file s fp = false) →
  attach_loop s (p :: ps) atts
  = (let* _ := expanduser (Path p) in
     Raise (FileNotFoundError ("Attachment not found: " ++ p))).
Proof.
  intros Hne Hnf. cbn [attach_loop].
  destruct (String.eqb_spec p ""); [done |].
  destruct (expanduser (Path p)) as [fp|e]; [|done]. cbn [bind].
  rewrite (Hnf fp eq_refl). by rewrite orb_true_r.
Qed.

End General.



#[local] Existing Instance Samples.rt.



(** A subject of two lines: the header assignment raises before any
    attachment path is looked at, whether or not the files are there. *)
Example send_email_smtp_header_line_break :
  Demo.more_than_one_line ("a" ++ Demo.nl ++ "b") = true ∧
  Demo.more_than_one_line ("a" ++ Demo.nl) = false ∧
  send_email_smtp Samples.store_with_report Samples.net_ok
    "Mon, 01 Jan 2024 00:00:00 +0000" "<1@local>"
    "ann@example.local" ["bob@example.local"] ("a" ++ Demo.nl ++ "b") (Some "text") None
    None None (Some ["/tmp/report.json"])
  = (Raise ValueError, []).
Proof. repeat split; by vm_compute. Qed.

End UtilsSend.

(** ** Attachment metadata at capture time *)

Module SinkAttachments.
Import Sink.

Lemma str_or_empty (o : option string) : str_or o "" = default "" o.
Proof.
  destruct o as [str|]; [|done]. simpl.
  by destruct (String.eqb_spec str "") as [->|].
Qed.

Lemma nonempty_true (str : string) : nonempty str = true ↔ str ≠ "".
Proof.
  unfold nonempty. destruct (String.eqb_spec str ""); simpl; split; congruence.
Qed.

(** A loop that appends [g p] for the elements [p] passing [f]. *)
Lemma fold_append_filter {A B} (f : A → bool) (g : A → B) (l : list A) :
  ∀ acc,
    fold_left (λ out p, if f p then (out ++ [g p])%list else out) l acc
    = (acc ++ map g (List.filter f l))%list.
Proof.
  induction l as [|x l IH]; intros acc; simpl.
  - by rewrite app_nil_r.
  - rewrite IH. destruct (f x); [|done]. simpl. by rewrite <- app_assoc.
Qed.


#[local] Existing Instance Samples.rt.

(** The named inline part of the samples: reported, with the length of
    the five decoded bytes, not of the eight characters as transferred. *)
Example named_inline_part_reported :
  _attachment_metadata Samples.named_inline_part =
    [ JObj [ ("filename", JStr "data.JSON"); ("content_type", JStr "application/json");
             ("size_bytes", JInt 5) ] ] ∧
  String.length "aGVsbG8=" = 8%nat.
Proof. by vm_compute. Qed.

End SinkAttachments.

(** ** Inline text of textual attachments *)

Module UtilsAttachments.
Import Utils.

Lemma take_N_take {A} (l : list A) : ∀ n, take_N n l = take (N.to_nat n) l.
Proof.
  induction l as [|x l IH]; intros n; simpl.
  - by destruct (N.to_nat n).
  - destruct (N.eqb_spec n 0) as [->|Hn]; [done |].
    rewrite IH. replace (N.to_nat n) with (S (N.to_nat (N.pred n))) by lia. done.
Qed.

Lemma allowed_ct_spec (ctype : string) :
  ctype ∈ _ALLOWED_CT ↔
  ctype ∈ [ "text/plain"; "text/csv"; "application/json"; "application/yaml";
            "text/yaml"; "application/x-yaml" ].
Proof.
  unfold _ALLOWED_CT.
  rewrite !elem_of_cons, elem_of_nil, !elem_of_union, !elem_of_singleton. tauto.
Qed.

Lemma allowed_ext_spec (ext : string) :
  ext ∈ _ALLOWED_EXT ↔ ext ∈ [ ".txt"; ".csv"; ".json"; ".yaml"; ".yml" ].
Proof.
  unfold _ALLOWED_EXT.
  rewrite !elem_of_cons, elem_of_nil, !elem_of_union, !elem_of_singleton. tauto.
Qed.

Lemma str_truthy_spec (o : option string) :
  str_truthy o = true ↔ ∃ f, o = Some f ∧ f ≠ "".
Proof.
  destruct o as [f|]; simpl.
  - destruct (String.eqb_spec f ""); simpl; split.
    + done.
    + intros (? & [= <-] & ?). done.
    + eauto.
    + done.
  - split; [done | by intros (? & ? & ?)].
Qed.

Lemma is_allowed_spec `{Runtime} (fname : option string) (ctype : string) :
  _is_allowed_attachment fname ctype = true ↔
  ctype ∈ [ "text/plain"; "text/csv"; "application/json"; "application/yaml";
            "text/yaml"; "application/x-yaml" ] ∨
  (∃ f, fname = Some f ∧ f ≠ "" ∧
        lower (path_suffix f) ∈ [ ".txt"; ".csv"; ".json"; ".yaml"; ".yml" ]).
Proof.
  unfold _is_allowed_attachment. rewrite <- allowed_ct_spec.
  case_bool_decide as Hct; [by split; [left |] |].
  destruct (str_truthy fname) eqn:Hf.
  - apply str_truthy_spec in Hf as (f & -> & Hne). simpl.
    case_bool_decide as Hext.
    + split; [|done]. intros _. right. exists f. by rewrite <- allowed_ext_spec.
    + split; [done |]. intros [?|(f' & [= <-] & _ & Hin)]; [done |].
      by apply allowed_ext_spec in Hin.
  - split; [done |]. intros [?|(f & -> & Hne & _)]; [done |].
    assert (str_truthy (Some f) = true) by (apply str_truthy_spec; eauto). congruence.
Qed.

(** The loop of [_extract_textual_attachments] appends, in walk order,
    the entry of every attachment part, and stops at the first entry that
    raises. *)
Lemma extract_loop_traverse `{Runtime} (parts : list Message) :
  ∀ results,
    extract_loop parts results
    = (let* new := traverse extract_entry (List.filter is_attachment parts) in
       Ok (results ++ new)%list).
Proof.
  induction parts as [|part parts IH]; intros results; cbn [extract_loop List.filter].
  - cbn. by rewrite app_nil_r.
  - destruct (is_attachment part); cbn [negb]; [|apply IH].
    cbn [traverse]. destruct (extract_entry part) as [entry|e]; [|done]. cbn [bind].
    rewrite IH. destruct (traverse _ _); [|done]. cbn [bind]. by rewrite <- app_assoc.
Qed.

Lemma traverse_Forall2 {A B} (f : A → result B) (l : list A) :
  ∀ r, traverse f l = Ok r → Forall2 (λ x y, f x = Ok y) l r.
Proof.
  induction l as [|x l IH]; intros r; cbn [traverse].
  - intros [= <-]. constructor.
  - destruct (f x) as [y|] eqn:Hx; [|done]. cbn [bind].
    destruct (traverse f l) as [ys|]; [|done]. cbn [bind]. intros [= <-].
    constructor; [done | by apply IH].
Qed.



End UtilsAttachments.

(** ** Body extraction *)

Module SinkBodies.
Import Sink Spec.

Section General.
Context `{Runtime}.

Lemma first_body_cons ctype part parts :
  first_body ctype (part :: parts) =
    if eligible ctype part
    then match part_content part with Ok str => Some str | Raise _ => None end
    else first_body ctype parts.
Proof. unfold first_body. simpl. by destruct (eligible ctype part). Qed.

Lemma first_body_app ctype pre rest str :
  first_body ctype pre = Some str → first_body ctype (pre ++ rest)%list = Some str.
Proof.
  induction pre as [|p pre IH]; [done |]. simpl.
  rewrite !first_body_cons. by destruct (eligible ctype p).
Qed.

Lemma bool_decide_is_None {A} (o : option A) :
  bool_decide (o = None) = match o with None => true | Some _ => false end.
Proof. destruct o; [by rewrite bool_decide_eq_false_2 | by rewrite bool_decide_eq_true_2]. Qed.

Lemma bool_decide_not_None {A} (o : option A) :
  bool_decide (o ≠ None) = match o with None => false | Some _ => true end.
Proof.
  destruct o; [by rewrite bool_decide_eq_true_2 |].
  rewrite bool_decide_eq_false_2; [done | by intros ?].
Qed.

(** The loop, from any state: a body already found stays, one not yet
    found becomes the content of the first eligible part ahead. *)
Lemma bodies_loop_spec parts :
  ∀ text html,
    bodies_loop parts text html =
      (match text with Some _ => text | None => first_body "text/plain" parts end,
       match html with Some _ => html | None => first_body "text/html" parts end).
Proof.
  induction parts as [|p parts IH]; intros text html.
  - simpl. unfold first_body. simpl. by destruct text, html.
  - cbn [bodies_loop]. rewrite !first_body_cons.
    unfold eligible, bodies_step. rewrite !bool_decide_is_None.
    destruct (String.eqb (lower (str_or (content_disposition (view p)) "")) "attachment");
      cbn [negb andb]; [by rewrite IH |].
    destruct (String.eqb_spec (content_type (view p)) "text/plain") as [Hp|Hp].
    + rewrite Hp. cbn [String.eqb Ascii.eqb Bool.eqb andb].
      destruct text as [t|], html as [h|], (part_content p) as [str|e];
        cbn [andb is_ok]; rewrite ?bool_decide_not_None; cbn [andb];
        rewrite ?IH; done.
    + destruct (String.eqb (content_type (view p)) "text/html");
        destruct text as [t|], html as [h|], (part_content p) as [str|e];
        cbn [andb is_ok]; rewrite ?bool_decide_not_None; cbn [andb];
        rewrite ?IH; done.
Qed.

End General.


#[local] Existing Instance Samples.rt.



End SinkBodies.

(** ** The two artifacts of a captured message *)

Module SinkStore.
Import Sink Spec.

Lemma list_ascii_app (s t : string) :
  list_ascii_of_string (s ++ t) = (list_ascii_of_string s ++ list_ascii_of_string t)%list.
Proof.
  induction s as [|a s IH]; [done |].
  change (String a s ++ t) with (String a (s ++ t)). simpl. by rewrite IH.
Qed.

Lemma string_app_assoc (s t u : string) : (s ++ t) ++ u = s ++ (t ++ u).
Proof.
  induction s as [|a s IH]; [done |].
  change (String a ((s ++ t) ++ u) = String a (s ++ (t ++ u))). by rewrite IH.
Qed.

Lemma string_app_inv_tail (s1 s2 t : string) : s1 ++ t = s2 ++ t → s1 = s2.
Proof.
  intros Heq. apply (f_equal list_ascii_of_string) in Heq.
  rewrite !list_ascii_app in Heq. apply app_inv_tail in Heq.
  apply (f_equal string_of_list_ascii) in Heq.
  by rewrite !string_of_list_ascii_of_string in Heq.
Qed.

Lemma eml_json_tail (s1 s2 : string) : s1 ++ ".eml" ≠ s2 ++ ".json".
Proof.
  intros Heq. apply (f_equal list_ascii_of_string) in Heq.
  rewrite !list_ascii_app in Heq. apply (f_equal (@rev ascii)) in Heq.
  rewrite !rev_app_distr in Heq. simpl in Heq. discriminate.
Qed.

Lemma prefix_slash_ext (uid ext : string) :
  String.prefix "/" ext = false →
  String.prefix "/" (uid ++ ext) = String.prefix "/" uid.
Proof.
  intros Hext. destruct uid as [|a uid]; [exact Hext |].
  change (String.prefix "/" (String a uid ++ ext))
    with (if ascii_dec "/" a then String.prefix "" (uid ++ ext) else false).
  change (String.prefix "/" (String a uid))
    with (if ascii_dec "/" a then String.prefix "" uid else false).
  destruct (ascii_dec "/" a); [|done]. destruct uid; [by destruct ext | done].
Qed.

Section General.
Context `{Runtime}.

Lemma path_join_stem (uid ext : string) :
  String.prefix "/" ext = false →
  path_join STORAGE_DIR (uid ++ ext) = stem uid ++ ext.
Proof.
  intros Hext. unfold path_join, stem. rewrite prefix_slash_ext by done.
  destruct (String.prefix "/" uid); [done |].
  by rewrite !string_app_assoc.
Qed.

Lemma eml_path_stem uid : eml_path uid = stem uid ++ ".eml".
Proof. by apply path_join_stem. Qed.

Lemma json_path_stem uid : json_path uid = stem uid ++ ".json".
Proof. by apply path_join_stem. Qed.

Lemma eml_ne_json uid uid' : eml_path uid ≠ json_path uid'.
Proof. rewrite eml_path_stem, json_path_stem. apply eml_json_tail. Qed.

Lemma json_path_eml_path uid uid' :
  json_path uid = json_path uid' → eml_path uid = eml_path uid'.
Proof.
  rewrite !json_path_stem, !eml_path_stem. intros Heq.
  by rewrite (string_app_inv_tail _ _ _ Heq).
Qed.

(** The raw artifact after a delivery is the message object serialised. *)
Lemma handle_message_raw (s : fs) uid now message :
  run_ops s (handle_message uid now message).1 !! eml_path uid
  = Some (File (as_bytes message)).
Proof.
  unfold handle_message.
  destruct (json_dumps _) as [txt|e]; simpl; unfold write_bytes.
  - rewrite lookup_insert_ne by (intros Heq; symmetry in Heq; by apply eml_ne_json in Heq).
    by rewrite lookup_insert_eq.
  - by rewrite lookup_insert_eq.
Qed.

Lemma handle_message_ops uid now message ops :
  ops `prefix_of` (handle_message uid now message).1 →
  ops = [] ∨ ops = [WriteBytes (eml_path uid) (as_bytes message)] ∨
  ∃ txt, ops = [WriteBytes (eml_path uid) (as_bytes message);
                WriteBytes (json_path uid) txt].
Proof.
  unfold handle_message. intros Hpre.
  assert (∀ (a b : fs_op) l, l `prefix_of` [a; b] → l = [] ∨ l = [a] ∨ l = [a; b]) as H2.
  { intros a b l [k Hk]. destruct l as [|x [|y [|z l]]]; simplify_eq/=; eauto. }
  assert (∀ (a : fs_op) l, l `prefix_of` [a] → l = [] ∨ l = [a]) as H1.
  { intros a l [k Hk]. destruct l as [|x [|y l]]; simplify_eq/=; eauto. }
  destruct (json_dumps _) as [txt|e]; simpl in Hpre.
  - apply H2 in Hpre as [->| [->| ->]]; eauto.
  - apply H1 in Hpre as [->| ->]; eauto.
Qed.

End General.


(** C4 (as amended): in every state of the store the sink can leave or
    show, a metadata artifact is never there without the raw artifact of
    the same id: the raw artifact is written first. *)
Theorem metadata_implies_raw `{Runtime} (s : fs) :
  reachable s →
  ∀ uid, is_Some (s !! json_path uid) → is_Some (s !! eml_path uid).
Proof.
  induction 1 as [|s uid now message ops Hs IH Hpre]; intros uid'.
  - rewrite lookup_empty. by intros [? ?].
  - apply handle_message_ops in Hpre as [->| [->| [txt ->]]]; simpl; unfold write_bytes.
    + apply IH.
    + rewrite lookup_insert_ne by apply eml_ne_json. intros Hj%IH.
      apply lookup_insert_is_Some'. by right.
    + intros Hj. apply lookup_insert_is_Some' in Hj as [Hj|Hj].
      * apply json_path_eml_path in Hj. rewrite <- Hj.
        apply lookup_insert_is_Some'. right.
        apply lookup_insert_is_Some'. by left.
      * rewrite lookup_insert_ne in Hj by apply eml_ne_json. apply IH in Hj.
        apply lookup_insert_is_Some'. right.
        apply lookup_insert_is_Some'. by right.
Qed.

#[local] Existing Instance Samples.rt.

Lemma metadata_implies_raw_witness :
  is_Some (run_ops ∅ (handle_message "u1" Samples.t_2024 Samples.wire_message).1
             !! eml_path "u1").
Proof.
  apply (metadata_implies_raw
           (run_ops ∅ (handle_message "u1" Samples.t_2024 Samples.wire_message).1)).
  - apply (reach_capture ∅ "u1" Samples.t_2024 Samples.wire_message); [constructor | done].
  - vm_compute. eexists. reflexivity.
Defined.


(** C4 (counterexample): between the two writes of a delivery, or when
    the second one fails, the store holds the raw artifact of [u1] and no
    metadata artifact for it. *)
Lemma raw_without_metadata_reachable :
  let s1 := run_ops ∅ [WriteBytes (eml_path "u1") (as_bytes Samples.wire_message)] in
  reachable s1 ∧ is_Some (s1 !! eml_path "u1") ∧ s1 !! json_path "u1" = None.
Proof.
  cbn zeta. split; [|split].
  - apply (reach_capture ∅ "u1" Samples.t_2024 Samples.wire_message); [constructor |].
    eexists. vm_compute. reflexivity.
  - vm_compute. eexists. reflexivity.
  - by vm_compute.
Qed.

End SinkStore.

(** ** The stable sort *)

Module PySort.

Section Sort.
Context {A : Type} (le : A → A → bool).

Lemma insert_by_perm x l : insert_by le x l ≡ₚ x :: l.
Proof.
  induction l as [|y l IH]; simpl; [done |].
  destruct (le x y); [done |]. rewrite IH. apply Permutation_swap.
Qed.

Lemma sort_by_perm l : sort_by le l ≡ₚ l.
Proof.
  induction l as [|x l IH]; simpl; [done |].
  unfold sort_by in *. simpl. by rewrite insert_by_perm, IH.
Qed.

Lemma sort_by_cons x l : sort_by le (x :: l) = insert_by le x (sort_by le l).
Proof. done. Qed.

Context (R : relation A) (Hle : ∀ a b, le a b = true ↔ R a b) `{!Total R}.

Lemma insert_by_hd x y l : R y x → HdRel R y l → HdRel R y (insert_by le x l).
Proof.
  intros Hyx Hhd. destruct l as [|z l]; simpl; [by constructor |].
  destruct (le x z); constructor; [done |]. by inversion Hhd.
Qed.

Lemma insert_by_sorted x l : Sorted R l → Sorted R (insert_by le x l).
Proof.
  induction 1 as [|y l Hs IH Hhd]; simpl; [by repeat constructor |].
  destruct (le x y) eqn:Hxy.
  - apply Hle in Hxy. by repeat constructor.
  - constructor; [done |]. apply insert_by_hd; [|done].
    destruct (total R x y) as [Hxy'|]; [|done].
    apply Hle in Hxy'. congruence.
Qed.

Lemma sort_by_sorted l : Sorted R (sort_by le l).
Proof.
  induction l as [|x l IH]; [constructor |].
  rewrite sort_by_cons. by apply insert_by_sorted.
Qed.

End Sort.

Lemma insert_by_fmap {A B} (f : A → B) (le : A → A → bool) (le' : B → B → bool) x l :
  (∀ a b, le' (f a) (f b) = le a b) →
  insert_by le' (f x) (f <$> l) = f <$> insert_by le x l.
Proof.
  intros Hf. induction l as [|y l IH]; [done |].
  rewrite fmap_cons. cbn [insert_by]. rewrite Hf.
  destruct (le x y); [by rewrite !fmap_cons |]. by rewrite fmap_cons, IH.
Qed.

Lemma sort_by_fmap {A B} (f : A → B) (le : A → A → bool) (le' : B → B → bool) l :
  (∀ a b, le' (f a) (f b) = le a b) →
  sort_by le' (f <$> l) = f <$> sort_by le l.
Proof.
  intros Hf. induction l as [|x l IH]; [done |].
  rewrite fmap_cons, !sort_by_cons, IH. by apply insert_by_fmap.
Qed.

(** Two orderings of the same distinct paths are one list. *)
Lemma sort_by_leb_unique (l1 l2 : list string) :
  l1 ≡ₚ l2 → sort_by String.leb l1 = sort_by String.leb l2.
Proof.
  intros Hp.
  assert (∀ a b, String.leb a b = true ↔ String.le a b) as Hle.
  { intros a b. unfold String.le. by rewrite Is_true_true. }
  apply (Sorted_unique String.le).
  - apply (sort_by_sorted String.leb String.le Hle).
  - apply (sort_by_sorted String.leb String.le Hle).
  - by rewrite !sort_by_perm.
Qed.

End PySort.

(** ** Listing *)

Module UtilsList.
Import Utils Spec.

Lemma prefix_spec (n h : string) :
  String.prefix n h = true ↔ ∃ post, h = n ++ post.
Proof.
  revert n. induction h as [|b h IH]; intros [|a n].
  - split; [by exists "" | done].
  - split; [done | by intros [post ?]].
  - split; [by exists (String b h) | done].
  - change (String.prefix (String a n) (String b h))
      with (if ascii_dec a b then String.prefix n h else false).
    change (∃ post, String b h = String a n ++ post)
      with (∃ post, String b h = String a (n ++ post)).
    destruct (ascii_dec a b) as [->|Hab].
    + rewrite IH. split; intros [post Hp]; exists post; congruence.
    + split; [done | intros [post [= ? ?]]; congruence].
Qed.

Lemma str_contains_spec (n h : string) :
  str_contains n h = true ↔ ∃ pre post, h = pre ++ n ++ post.
Proof.
  induction h as [|b h IH].
  - cbn [str_contains]. rewrite orb_false_r, prefix_spec. split.
    + intros [post Hp]. by exists "", post.
    + intros (pre & post & Hp). destruct pre as [|? ?]; [by exists post | done].
  - cbn [str_contains]. rewrite orb_true_iff, prefix_spec, IH. split.
    + intros [[post Hp]|(pre & post & Hp)].
      * by exists "", post.
      * exists (String b pre), post. by rewrite Hp.
    + intros (pre & post & Hp). destruct pre as [|c pre].
      * left. by exists post.
      * right. exists pre, post.
        change (String b h = String c (pre ++ n ++ post)) in Hp. congruence.
Qed.

Lemma traverse_ok {A B} (f : A → result B) (g : A → B) (l : list A) :
  Forall (λ x, f x = Ok (g x)) l → traverse f l = Ok (map g l).
Proof. induction 1 as [|x l Hx _ IH]; simpl; [done |]. by rewrite Hx, IH. Qed.

Lemma filter_r_ok {A} (p : A → result bool) (b : A → bool) (l : list A) :
  Forall (λ x, p x = Ok (b x)) l → filter_r p l = Ok (List.filter b l).
Proof.
  induction 1 as [|x l Hx _ IH]; simpl; [done |]. rewrite Hx, IH. simpl.
  by destruct (b x).
Qed.

Lemma slice_to_take {A} (k : Z) (l : list A) :
  0 ≤ k → slice_to k l = take (Z.to_nat k) l.
Proof. intros Hk. unfold slice_to. destruct (Z.ltb_spec k 0); [lia | done]. Qed.

Lemma filter_perm {A} (f : A → bool) (l1 l2 : list A) :
  l1 ≡ₚ l2 → List.filter f l1 ≡ₚ List.filter f l2.
Proof.
  induction 1 as [|x l1 l2 _ IH|x y l|l1 l2 l3 _ IH1 _ IH2]; simpl.
  - done.
  - destruct (f x); by rewrite IH.
  - destruct (f x), (f y); try done. apply Permutation_swap.
  - by rewrite IH1.
Qed.

Lemma omap_insert_by_skip {A B} (le : A → A → bool) (f : A → option B) x l :
  f x = None → omap f (insert_by le x l) = omap f l.
Proof.
  intros Hx. induction l as [|y l IH]; cbn; [by rewrite Hx |].
  destruct (le x y); cbn; [by rewrite Hx |].
  change (omap f (insert_by le x l) = omap f l) in IH.
  destruct (f y); by rewrite <- IH.
Qed.

Lemma omap_ext_all {A B} (f g : A → option B) (l : list A) :
  (∀ x, f x = g x) → omap f l = omap g l.
Proof.
  intros Hfg. induction l as [|x l IH]; [done |]. cbn. rewrite Hfg.
  change (omap f l = omap g l) in IH. by rewrite IH.
Qed.

Section General.
Context `{Runtime}.

Lemma summary_ok (r : json) : is_obj r = true → summary r = Ok (summary_of r).
Proof. by destruct r. Qed.

Lemma sort_key_ok (r : json) : is_obj r = true → sort_key r = Ok (stored_key r).
Proof. by destruct r. Qed.

Lemma sort_records_ok (recs : list json) :
  Forall (λ r, is_obj r = true) recs →
  sort_records recs = Ok (sort_by newest_first recs).
Proof.
  intros Hobj. unfold sort_records, newest_first.
  rewrite (traverse_ok _ (λ r, (stored_key r, r))).
  - cbn [bind]. f_equal.
    change (map (λ r, (stored_key r, r)) recs) with ((λ r, (stored_key r, r)) <$> recs).
    rewrite (PySort.sort_by_fmap _ (λ a b, stored_key b <=? stored_key a)) by done.
    change (snd <$> ((λ r, (stored_key r, r)) <$> sort_by
              (λ a b, stored_key b <=? stored_key a) recs) = sort_by
              (λ a b, stored_key b <=? stored_key a) recs).
    rewrite <- list_fmap_compose. apply list_fmap_id.
  - eapply Forall_impl; [exact Hobj |]. intros r Hr. simpl. by rewrite sort_key_ok.
Qed.

Lemma lower_or_empty_ok (v : json) :
  opt_str_ok v = true → lower_or_empty v = Ok (lower (text_of v)).
Proof.
  destruct v as [| | |str| |]; try done.
  unfold lower_or_empty, or_else. simpl.
  by destruct (String.eqb_spec str "") as [->|].
Qed.

Lemma traverse_as_str (l : list json) :
  forallb is_str l = true → traverse as_str l = Ok (map text_of l).
Proof.
  induction l as [|v l IH]; simpl; [done |].
  intros [Hv Hl]%andb_true_iff. destruct v; try done. simpl. by rewrite IH.
Qed.

Lemma join_items_ok (v : json) :
  str_list_ok v = true → join_items v = Ok (join " " (texts_of v)).
Proof.
  destruct v as [| | | |l|]; try done. simpl. intros Hl.
  unfold join_items, or_else. destruct l as [|x l]; [done |].
  cbn [truthy]. by rewrite traverse_as_str.
Qed.

Lemma hay_ok (r : json) : well_formed r = true → hay r = Ok (haystack r).
Proof.
  unfold well_formed. rewrite !andb_true_iff.
  intros ((((Hobj & Hs) & Hf) & Ht) & Hx).
  destruct r as [| | | | |fs]; try done.
  unfold hay, dict_get, dict_get_default. cbn [bind].
  change (default JNull (assoc "subject" fs)) with (field "subject" (JObj fs)).
  change (default JNull (assoc "from" fs)) with (field "from" (JObj fs)).
  change (default JNull (assoc "to" fs)) with (field "to" (JObj fs)).
  change (default JNull (assoc "text" fs)) with (field "text" (JObj fs)).
  rewrite !lower_or_empty_ok, join_items_ok by done. done.
Qed.

Lemma well_formed_obj (r : json) : well_formed r = true → is_obj r = true.
Proof. unfold well_formed. rewrite !andb_true_iff. tauto. Qed.

Lemma Forall_list_filter {A} (P : A → Prop) (f : A → bool) (l : list A) :
  Forall P l → Forall P (List.filter f l).
Proof.
  induction 1 as [|x l Hx _ IH]; simpl; [done |].
  destruct (f x); [by constructor | done].
Qed.

Lemma listable_obj query r : listable query r = true → is_obj r = true.
Proof. unfold listable. destruct (str_truthy query); [apply well_formed_obj | done]. Qed.

Lemma sorted_perm (recs : list json) : sort_by newest_first recs ≡ₚ recs.
Proof. apply PySort.sort_by_perm. Qed.

Lemma sorted_newest_first (recs : list json) :
  StronglySorted (λ a b, stored_key b ≤ stored_key a) (sort_by newest_first recs).
Proof.
  assert (Transitive (λ a b : json, stored_key b ≤ stored_key a)) by (intros a b c; lia).
  assert (Total (λ a b : json, stored_key b ≤ stored_key a)) by (intros a b; lia).
  apply Sorted_StronglySorted; [done |].
  apply (PySort.sort_by_sorted newest_first); [|done].
  intros a b. unfold newest_first. apply Z.leb_le.
Qed.

(** The listing as one expression, for records it can read. *)
Lemma list_emails_fs_eq (s : fs) query limit :
  Forall (λ r, listable query r = true) (load_records s) →
  list_emails_fs s query limit =
    Ok (map summary_of
          (take (Z.to_nat (Z.max 1 limit))
                (selected query (sort_by newest_first (load_records s))))).
Proof.
  intros Hl. unfold list_emails_fs.
  assert (Forall (λ r, listable query r = true) (sort_by newest_first (load_records s)))
    as Hsorted.
  { apply Forall_forall. intros r Hr. rewrite sorted_perm in Hr.
    by apply (proj1 (Forall_forall _ _) Hl). }
  rewrite sort_records_ok by (eapply Forall_impl; [exact Hl | apply listable_obj]).
  cbn [bind]. unfold selected, listable in *.
  destruct (str_truthy query) eqn:Hq.
  - rewrite (filter_r_ok _ (hit (default "" query))).
    + cbn [bind]. rewrite slice_to_take by lia. apply traverse_ok.
      apply Forall_take, Forall_list_filter.
      eapply Forall_impl; [exact Hsorted |]. intros r Hr.
      apply summary_ok, well_formed_obj, Hr.
    + eapply Forall_impl; [exact Hsorted |]. intros r Hr. simpl.
      rewrite hay_ok by done. done.
  - cbn [bind]. rewrite slice_to_take by lia. apply traverse_ok.
    apply Forall_take. eapply Forall_impl; [exact Hsorted |]. intros r Hr.
    by apply summary_ok.
Qed.

Lemma hit_matches q r : hit q r = true ↔ matches q r.
Proof. unfold hit, matches. apply str_contains_spec. Qed.

(** A file that does not load contributes nothing and hides nothing. *)
Lemma safe_load_delete (s : fs) p p' :
  is_ok (let* b := read_bytes s p in json_loads b) = false →
  _safe_load (delete p s) p' = _safe_load s p'.
Proof.
  intros Hbad. unfold _safe_load, read_bytes in *.
  destruct (decide (p = p')) as [<-|Hne].
  - rewrite lookup_delete_eq. cbn [bind].
    destruct (s !! p) as [[d|]|]; cbn [bind] in *; [|done..].
    by destruct (json_loads d).
  - by rewrite lookup_delete_ne.
Qed.

Lemma load_records_delete (s : fs) p :
  is_ok (let* b := read_bytes s p in json_loads b) = false →
  load_records (delete p s) = load_records s.
Proof.
  intros Hbad. destruct (s !! p) as [x|] eqn:Hp; [|by rewrite delete_id].
  unfold load_records.
  set (keep := λ q, let data := _safe_load s q in if truthy data then Some data else None).
  assert (keep p = None) as Hkeep.
  { unfold keep, _safe_load. by destruct (let* b := read_bytes s p in json_loads b). }
  rewrite (omap_ext_all _ keep) by (intros q; unfold keep; by rewrite safe_load_delete).
  unfold glob_json.
  pose proof (map_to_list_delete s p x Hp) as Hperm.
  apply (fmap_Permutation fst) in Hperm. rewrite fmap_cons in Hperm. cbn [fst] in Hperm.
  rewrite <- (PySort.sort_by_leb_unique _ _ (filter_perm (glob_match MAIL_DIR) _ _ Hperm)).
  cbn [List.filter]. destruct (glob_match MAIL_DIR p); [|done].
  rewrite PySort.sort_by_cons. by rewrite omap_insert_by_skip.
Qed.

End General.


(** C6 (as amended): for records typed as the sink writes them, a
    listing with the non-empty query [q] returns the summaries of the
    first [max(1, limit)]
    records, newest first, among exactly those whose haystack (subject,
    sender, joined recipients and plain body, lower-cased) contains the
    lower-cased query as a substring; no other field takes part; with an
    empty or absent query all records are listed, up to the limit. *)
Theorem list_emails_fs_query `{Runtime} (s : fs) (q : string) limit :
  Forall (λ r, well_formed r = true) (load_records s) →
  ∃ recs,
    sort_records (load_records s) = Ok recs ∧
    recs ≡ₚ load_records s ∧
    (∀ r, hit q r = true ↔ ∃ pre post, haystack r = pre ++ lower q ++ post) ∧
    (∀ r, r ∈ List.filter (hit q) recs ↔ r ∈ load_records s ∧ matches q r) ∧
    (∀ r r', field "subject" r = field "subject" r' → field "from" r = field "from" r' →
             field "to" r = field "to" r' → field "text" r = field "text" r' →
             hit q r = hit q r') ∧
    (q ≠ "" →
       list_emails_fs s (Some q) limit =
         Ok (map summary_of (take (Z.to_nat (Z.max 1 limit)) (List.filter (hit q) recs)))) ∧
    list_emails_fs s (Some "") limit =
      Ok (map summary_of (take (Z.to_nat (Z.max 1 limit)) recs)) ∧
    list_emails_fs s None limit =
      Ok (map summary_of (take (Z.to_nat (Z.max 1 limit)) recs)).
Proof.
  intros Hwf. exists (sort_by newest_first (load_records s)).
  assert (Forall (λ r, is_obj r = true) (load_records s)) as Hobj.
  { eapply Forall_impl; [exact Hwf | apply well_formed_obj]. }
  split; [by apply sort_records_ok |]. split; [apply sorted_perm |].
  split; [intros r; apply hit_matches |]. split; [|split]; [| |split; [|split]].
  - intros r. rewrite list_elem_of_In, filter_In, <- list_elem_of_In.
    rewrite sorted_perm, hit_matches. done.
  - intros r r' Hs Hf Ht Hx. unfold hit, haystack. by rewrite Hs, Hf, Ht, Hx.
  - intros Hq. rewrite (list_emails_fs_eq s (Some q)).
    + unfold selected. simpl. by destruct (String.eqb_spec q "").
    + unfold listable. simpl. by destruct (String.eqb_spec q "").
  - by rewrite (list_emails_fs_eq s (Some "")).
  - by rewrite (list_emails_fs_eq s None).
Qed.

(** C10: a metadata file that cannot be read or does not parse as JSON is
    left out of the listing and changes nothing else: the listing is the
    one of the store without that file, whatever the query and the limit. *)
Theorem list_emails_fs_skips_corrupt `{Runtime} (s : fs) (p : string) query limit :
  is_ok (let* b := read_bytes s p in json_loads b) = false →
  list_emails_fs s query limit = list_emails_fs (delete p s) query limit.
Proof.
  intros Hbad. unfold list_emails_fs. by rewrite load_records_delete.
Qed.

#[local] Existing Instance Samples.rt.



Lemma list_emails_fs_query_witness :
  list_emails_fs Samples.store_raw_missing (Some "WEEKLY report") 50 =
    Ok [ summary_of Samples.rec1 ].
Proof.
  destruct (list_emails_fs_query Samples.store_raw_missing "WEEKLY report" 50)
    as (recs & Hsort & _ & _ & _ & _ & Hq & _).
  - vm_compute. repeat constructor.
  - rewrite Hq by discriminate. vm_compute in Hsort. injection Hsort as <-.
    vm_compute. reflexivity.
Defined.

Lemma list_emails_fs_skips_corrupt_witness :
  list_emails_fs Samples.store_corrupt None 50 =
  list_emails_fs (delete "/srv/mcp_mail/zz.json" Samples.store_corrupt) None 50.
Proof.
  apply (list_emails_fs_skips_corrupt Samples.store_corrupt "/srv/mcp_mail/zz.json" None 50).
  vm_compute. reflexivity.
Defined.

(** The corrupt file next to [m1]: the listing is the summary of [m1]. *)
Example list_emails_fs_corrupt_store :
  list_emails_fs Samples.store_corrupt None 50 = Ok [ summary_of Samples.rec1 ].
Proof. by vm_compute. Qed.

End UtilsList.

(** ** More on the sink: headers, the record, the capture step *)

Module SinkMore.
Import Sink Spec.

Lemma Forall_filter_true {A} (f : A → bool) (l : list A) :
  Forall (λ a, f a = true) (List.filter f l).
Proof.
  induction l as [|x l IH]; simpl; [done |].
  destruct (f x) eqn:Hx; [by constructor | done].
Qed.

Section General.
Context `{Runtime}.

Lemma headers_loop_nonempty (decoded : list (option string)) :
  ∀ out,
    Forall (λ a, a ≠ "") out →
    Forall (λ a, a ≠ "")
      (fold_left
         (λ out v,
            match v with
            | None => out
            | Some v =>
                if nonempty v then
                  let parts := List.filter nonempty (map strip (split_on "," v)) in
                  (out ++ match parts with [] => [v] | _ => parts end)%list
                else out
            end) decoded out).
Proof.
  induction decoded as [|v decoded IH]; intros out Hout; [done |].
  cbn [fold_left]. apply IH. destruct v as [v|]; [|done].
  destruct (nonempty v) eqn:Hv; [|done]. cbn zeta.
  apply Forall_app. split; [done |].
  pose proof (Forall_filter_true nonempty (map strip (split_on "," v))) as Hparts.
  destruct (List.filter nonempty (map strip (split_on "," v))) as [|a parts].
  - constructor; [by apply SinkAttachments.nonempty_true | constructor].
  - eapply Forall_impl; [exact Hparts |]. intros a'. apply SinkAttachments.nonempty_true.
Qed.

End General.

(** X1: the address list read from a header never holds an empty entry,
    whatever the header values are, and is empty when the message has no
    header of that name. *)
Theorem headers_list_no_empty_entry `{Runtime} (msg : Message) (name : string) :
  Forall (λ a, a ≠ "") (_headers_list msg name) ∧
  (get_all msg name = [] → _headers_list msg name = []).
Proof.
  split.
  - unfold _headers_list. by apply headers_loop_nonempty.
  - unfold _headers_list. by intros ->.
Qed.


End SinkMore.

(** ** More on sending *)

Module UtilsSendMore.
Import Utils Spec.

Lemma split_slash_spec (ctype m t : string) :
  split_slash ctype = Ok (m, t) → ctype = m ++ "/" ++ t ∧ str_contains "/" m = false.
Proof.
  revert m. induction ctype as [|a ctype IH]; intros m; [done |].
  cbn [split_slash]. destruct (Ascii.eqb_spec a "/") as [->|Ha].
  - intros [= <- <-]. done.
  - destruct (split_slash ctype) as [[m' t']|e] eqn:Hs; cbn [bind]; [|done].
    intros [= <- <-]. destruct (IH m' eq_refl) as [-> Hm]. split; [done |].
    cbn [str_contains].
    change (String.prefix "/" (String a m'))
      with (if ascii_dec "/" a then String.prefix "" m' else false).
    destruct (ascii_dec "/" a) as [<-|_]; [done |]. exact Hm.
Qed.

Lemma split_slash_no_slash (ctype : string) :
  str_contains "/" ctype = false → split_slash ctype = Raise ValueError.
Proof.
  induction ctype as [|a ctype IH]; [done |].
  cbn [str_contains split_slash].
  change (String.prefix "/" (String a ctype))
    with (if ascii_dec "/" a then String.prefix "" ctype else false).
  destruct (Ascii.eqb_spec a "/") as [->|Ha].
  - destruct (ascii_dec "/" "/"); [|done]. by destruct ctype.
  - destruct (ascii_dec "/" a) as [<-|_]; [done |]. simpl.
    intros Hc. by rewrite IH.
Qed.

Section General.
Context `{Runtime}.

Lemma attach_loop_ok (s : fs) (ps : list string) :
  ∀ atts atts',
    attach_loop s ps atts = Ok atts' →
    ∃ new, atts' = (atts ++ new)%list ∧
           Forall2 (attached s) (List.filter Sink.nonempty ps) new.
Proof.
  induction ps as [|p ps IH]; intros atts atts'; cbn [attach_loop List.filter].
  - intros [= <-]. exists []. by rewrite app_nil_r.
  - unfold Sink.nonempty at 1. destruct (String.eqb_spec p "") as [->|Hp]; cbn [negb].
    + apply IH.
    + destruct (expanduser (Path p)) as [fp|e] eqn:Hfp; [|done]. cbn [bind].
      destruct (negb (path_exists s fp) || negb (is_file s fp)); [done |].
      destruct (read_bytes s fp) as [data|e] eqn:Hread; [|done].
      cbn [bind].
      destruct (guess_type (path_name fp)) as [ctype|] eqn:Hg.
      * destruct (String.eqb ctype "") eqn:Hc; cbn [bind].
        -- destruct (add_attachment _ _ _ _) as [[]|e]; [|done]. cbn [bind].
           intros (new & -> & Hnew)%IH. eexists. rewrite <- app_assoc. split; [done |].
           constructor; [|done]. exists fp. cbn. by rewrite Hread, Hg, Hc.
        -- destruct (split_slash ctype) as [[m t]|e] eqn:Hs; cbn [bind]; [|done].
           destruct (add_attachment _ _ _ _) as [[]|e]; [|done]. cbn [bind].
           intros (new & -> & Hnew)%IH. eexists. rewrite <- app_assoc. split; [done |].
           constructor; [|done]. exists fp. cbn. rewrite Hread, Hg, Hc.
           destruct (split_slash_spec _ _ _ Hs). done.
      * cbn [bind]. destruct (add_attachment _ _ _ _) as [[]|e]; [|done]. cbn [bind].
        intros (new & -> & Hnew)%IH. eexists. rewrite <- app_assoc.
        split; [done |]. constructor; [|done]. exists fp. cbn. by rewrite Hread, Hg.
Qed.

Lemma list_truthy_default {A} (o : option (list A)) :
  (if list_truthy o then default [] o else []) = default [] o.
Proof. by destruct o as [[|x l]|]. Qed.

End General.

(** X4: when [_attach_files] returns, the message has one attachment per
    non-empty path, in the order of the paths: the bytes of that file,
    named by its base name, typed by the guess split at its first slash,
    or as application/octet-stream when there is no guess.  Empty paths
    contribute nothing. *)
Theorem attach_files_success `{Runtime} (s : fs) (paths : option (list string))
    (atts : list attachment) :
  _attach_files s [] paths = Ok atts →
  Forall2 (attached s) (List.filter Sink.nonempty (default [] paths)) atts.
Proof.
  destruct paths as [ps|]; simpl.
  - intros (new & -> & Hnew)%attach_loop_ok. exact Hnew.
  - intros [= <-]. constructor.
Qed.


#[local] Existing Instance Samples.rt.

Lemma attach_files_success_witness :
  Forall2 (attached Samples.store_with_report)
          (List.filter Sink.nonempty [""; "/tmp/report.json"])
          [Samples.report_attachment].
Proof.
  apply (attach_files_success Samples.store_with_report
           (Some [""; "/tmp/report.json"]) [Samples.report_attachment]).
  vm_compute. reflexivity.
Defined.


End UtilsSendMore.

(** ** More on reading one message *)

Module UtilsGetMore.
Import Utils Spec.

Lemma assoc_set_eq (k : string) (v : json) (l : list (string * json)) :
  assoc k (assoc_set k v l) = Some v.
Proof.
  induction l as [|[k' v'] l IH]; simpl.
  - by rewrite String.eqb_refl.
  - destruct (String.eqb k k') eqn:Hk; simpl; [by rewrite String.eqb_refl |].
    by rewrite Hk.
Qed.

Lemma assoc_set_ne (k k0 : string) (v : json) (l : list (string * json)) :
  k0 ≠ k → assoc k0 (assoc_set k v l) = assoc k0 l.
Proof.
  intros Hne. induction l as [|[k' v'] l IH]; simpl.
  - by destruct (String.eqb_spec k0 k).
  - destruct (String.eqb_spec k k') as [<-|Hk]; simpl.
    + by destruct (String.eqb_spec k0 k).
    + destruct (String.eqb k0 k'); [done | exact IH].
Qed.

Lemma assoc_set_keys (k : string) (v : json) (l : list (string * json)) :
  is_Some (assoc k l) → (assoc_set k v l).*1 = l.*1.
Proof.
  induction l as [|[k' v'] l IH]; cbn [assoc assoc_set]; [by intros [? ?] |].
  destruct (String.eqb_spec k k') as [<-|Hk]; [done |].
  intros Hs. rewrite !fmap_cons. by rewrite IH.
Qed.

Lemma str_truthy_nonempty (o : option string) :
  str_truthy o = Sink.nonempty (str_or o "").
Proof.
  destruct o as [str|]; [|done]. unfold str_truthy, str_or, Sink.nonempty.
  destruct (String.eqb str "") eqn:Hs; [done | by rewrite Hs].
Qed.

Section General.
Context `{Runtime}.

Lemma is_attachment_same (part : Message) :
  is_attachment part = Sink.is_attachment part.
Proof. unfold is_attachment, Sink.is_attachment. by rewrite str_truthy_nonempty. Qed.

Lemma extract_entry_base (part : Message) (raw : option bytes) :
  get_payload_decode part = Ok raw →
  ∃ e, extract_entry part = Ok e ∧ base_entry e = Sink.attachment_entry part.
Proof.
  intros Hraw. unfold extract_entry, Sink.attachment_entry, Sink.payload_size.
  rewrite Hraw. cbn [bind].
  destruct (_is_allowed_attachment _ _); eexists; (split; [reflexivity |]); done.
Qed.

Lemma extract_loop_base (parts : list Message) :
  Forall (λ part, is_attachment part = true → is_ok (get_payload_decode part) = true) parts →
  ∀ results, ∃ new,
    extract_loop parts results = Ok (results ++ new)%list ∧
    map base_entry new = map Sink.attachment_entry (List.filter Sink.is_attachment parts).
Proof.
  induction 1 as [|part parts Hpart _ IH]; intros results; cbn [extract_loop List.filter].
  - exists []. by rewrite app_nil_r.
  - rewrite <- is_attachment_same. destruct (is_attachment part) eqn:Hatt; cbn [negb].
    + specialize (Hpart eq_refl).
      destruct (get_payload_decode part) as [raw|e] eqn:Hraw; [|done].
      destruct (extract_entry_base part raw Hraw) as (e & -> & He). cbn [bind].
      destruct (IH (results ++ [e])%list) as (new & -> & Hnew).
      exists (e :: new). rewrite <- app_assoc. split; [done |].
      cbn [map]. by rewrite He, Hnew.
    + apply IH.
Qed.

(** Reading a record that names an existing position for its raw artifact. *)
Lemma get_email_fs_ok (s : fs) email_id fields rawp entries :
  is_Some (s !! path_join MAIL_DIR (email_id ++ ".json")) →
  _safe_load s (path_join MAIL_DIR (email_id ++ ".json")) = JObj fields →
  assoc "raw_path" fields = Some (JStr rawp) →
  rawp ≠ "" →
  _extract_textual_attachments s rawp = Ok entries →
  get_email_fs s email_id = Ok (JObj (assoc_set "attachments" (JArr entries) fields)).
Proof.
  intros Hex Hload Hraw Hne Hext.
  assert (path_exists s (path_join MAIL_DIR (email_id ++ ".json")) = true) as Hp.
  { unfold path_exists. by rewrite bool_decide_eq_true_2. }
  unfold get_email_fs. rewrite Hp, Hload. simpl.
  unfold dict_get, dict_get_default. rewrite Hraw. simpl.
  assert (truthy (JStr rawp) = true) as Ht.
  { simpl. destruct (String.eqb_spec rawp ""); [congruence | done]. }
  unfold or_else. rewrite Ht. simpl.
  unfold Path. destruct (String.eqb_spec rawp ""); [congruence |].
  by rewrite Hext.
Qed.

End General.


(** X7: for a record that names its raw artifact, [get_email_fs] returns
    the stored record with the [attachments] field replaced by the entries
    recomputed from the raw artifact and every other field as stored; a
    record that has an [attachments] field keeps its fields in order. *)
Theorem get_email_fs_pass_through `{Runtime} (s : fs) email_id fields rawp entries :
  is_Some (s !! path_join MAIL_DIR (email_id ++ ".json")) →
  _safe_load s (path_join MAIL_DIR (email_id ++ ".json")) = JObj fields →
  assoc "raw_path" fields = Some (JStr rawp) →
  rawp ≠ "" →
  _extract_textual_attachments s rawp = Ok entries →
  ∃ fields',
    get_email_fs s email_id = Ok (JObj fields') ∧
    assoc "attachments" fields' = Some (JArr entries) ∧
    (∀ k, k ≠ "attachments" → assoc k fields' = assoc k fields) ∧
    (is_Some (assoc "attachments" fields) → fields'.*1 = fields.*1).
Proof.
  intros Hex Hload Hraw Hne Hext. eexists. split; [by eapply get_email_fs_ok |].
  split; [apply assoc_set_eq |]. split; [intros k Hk; by apply assoc_set_ne |].
  apply assoc_set_keys.
Qed.

(** X8: a record with no usable [raw_path] (absent, null or empty) is
    read as if its raw artifact were the current directory: the stored
    attachment list is never consulted.  With the current directory in
    place the call raises [IsADirectoryError]. *)
Theorem get_email_fs_without_raw_path `{Runtime} (s : fs) email_id fields :
  is_Some (s !! path_join MAIL_DIR (email_id ++ ".json")) →
  _safe_load s (path_join MAIL_DIR (email_id ++ ".json")) = JObj fields →
  truthy (default JNull (assoc "raw_path" fields)) = false →
  get_email_fs s email_id =
    (let* entries := _extract_textual_attachments s "." in
     Ok (JObj (assoc_set "attachments" (JArr entries) fields))) ∧
  (s !! "." = Some Dir → get_email_fs s email_id = Raise IsADirectoryError).
Proof.
  intros Hex Hload Hraw.
  assert (get_email_fs s email_id =
            (let* entries := _extract_textual_attachments s "." in
             Ok (JObj (assoc_set "attachments" (JArr entries) fields)))) as Hget.
  { unfold get_email_fs, path_exists. rewrite bool_decide_eq_true_2 by done.
    cbn [negb]. rewrite Hload. unfold dict_get, dict_get_default. cbn [bind].
    unfold or_else. rewrite Hraw. cbn [Path_of bind Path_bool].
    change (Path "") with ".".
    by destruct (_extract_textual_attachments s "."). }
  split; [exact Hget |]. intros Hdir. rewrite Hget.
  unfold _extract_textual_attachments, path_exists, read_bytes. rewrite Hdir.
  by rewrite bool_decide_eq_true_2.
Qed.


#[local] Existing Instance Samples.rt_report.


Lemma get_email_fs_pass_through_witness :
  ∃ fields',
    get_email_fs Samples.store_complete "m1" = Ok (JObj fields') ∧
    assoc "attachments" fields' = Some (JArr [Samples.report_entry]) ∧
    assoc "subject" fields' = Some (JStr "Weekly Report") ∧
    fields'.*1 = Samples.rec1_fields.*1.
Proof.
  destruct (get_email_fs_pass_through Samples.store_complete "m1" Samples.rec1_fields
              "/srv/mcp_mail/m1.eml" [Samples.report_entry])
    as (fields' & Hget & Hatt & Hother & Hkeys).
  - vm_compute. eauto.
  - by vm_compute.
  - by vm_compute.
  - discriminate.
  - by vm_compute.
  - exists fields'. split; [exact Hget |]. split; [exact Hatt |].
    split; [rewrite Hother by discriminate; by vm_compute |].
    apply Hkeys. vm_compute. eauto.
Defined.

Lemma get_email_fs_without_raw_path_witness :
  get_email_fs Samples.store_no_raw_path "a" = Raise IsADirectoryError.
Proof.
  destruct (get_email_fs_without_raw_path Samples.store_no_raw_path "a"
              [ ("id", JStr "a"); ("stored_at", JStr "not-a-date"); ("subject", JStr "A") ])
    as [_ Hdir].
  - vm_compute. eauto.
  - by vm_compute.
  - by vm_compute.
  - apply Hdir. by vm_compute.
Defined.


End UtilsGetMore.

(** ** From the capture to the retrieval *)

Module CaptureThenGet.
Import Sink Spec.

Section General.
Context `{Runtime}.

Lemma record_of_fields uid now parsed :
  ∃ fields,
    record_of uid now parsed = JObj fields ∧
    assoc "raw_path" fields = Some (JStr (eml_path uid)) ∧
    assoc "attachments" fields = Some (JArr (_attachment_metadata parsed)).
Proof.
  unfold record_of. destruct (_best_effort_bodies parsed).
  eexists. split; [reflexivity |]. by split.
Qed.

End General.

(** X11: with both sides on one directory, a capture that completes can
    be read back under its id: [get_email_fs] returns the record the sink
    stored, every field but [attachments] as stored, and the attachment
    entries recomputed from the raw artifact, which without their inline
    text are the captured metadata entries.  The JSON text written has to
    load to the record it was dumped from, and the payload of every
    attachment part has to decode. *)
Theorem capture_then_get `{Runtime} (s : fs) uid now message txt :
  STORAGE_DIR = MAIL_DIR →
  json_dumps (record_of uid now (parsebytes (as_bytes message))) = Ok txt →
  json_loads txt = Ok (record_of uid now (parsebytes (as_bytes message))) →
  Forall (λ part, Utils.is_attachment part = true →
                  is_ok (get_payload_decode part) = true)
         (walk (parsebytes (as_bytes message))) →
  ∃ fields entries,
    Utils.get_email_fs (run_ops s (handle_message uid now message).1) uid
      = Ok (JObj fields) ∧
    assoc "attachments" fields = Some (JArr entries) ∧
    map base_entry entries = _attachment_metadata (parsebytes (as_bytes message)) ∧
    (∀ k, k ≠ "attachments" →
       default JNull (assoc k fields)
       = field k (record_of uid now (parsebytes (as_bytes message)))).
Proof.
  intros Hdir Hdumps Hloads Hall.
  destruct (record_of_fields uid now (parsebytes (as_bytes message)))
    as (fields0 & Hrec & Hraw & _).
  destruct (UtilsGetMore.extract_loop_base _ Hall []) as (entries & Hloop & Hbase).
  assert (run_ops s (handle_message uid now message).1 !! json_path uid
          = Some (File txt)) as Hj.
  { unfold handle_message. cbn zeta. rewrite Hdumps. cbn. unfold write_bytes.
    apply lookup_insert_eq. }
  pose proof (SinkStore.handle_message_raw s uid now message) as He.
  assert (path_join MAIL_DIR (uid ++ ".json") = json_path uid) as Hp.
  { unfold json_path. by rewrite Hdir. }
  exists (assoc_set "attachments" (JArr entries) fields0), entries. split.
  - apply (UtilsGetMore.get_email_fs_ok _ uid fields0 (eml_path uid) entries).
    + rewrite Hp, Hj. eauto.
    + rewrite Hp. unfold Utils._safe_load, read_bytes. rewrite Hj. cbn [bind].
      rewrite Hloads. exact Hrec.
    + exact Hraw.
    + rewrite SinkStore.eml_path_stem. intros Heq. destruct (stem uid); discriminate.
    + unfold Utils._extract_textual_attachments, path_exists, read_bytes. rewrite He.
      rewrite bool_decide_eq_true_2 by eauto. exact Hloop.
  - split; [apply UtilsGetMore.assoc_set_eq |]. split.
    + rewrite Hbase. unfold _attachment_metadata.
      by rewrite SinkAttachments.fold_append_filter.
    + intros k Hk. rewrite UtilsGetMore.assoc_set_ne by done. by rewrite Hrec.
Qed.

#[local] Existing Instance Samples.rt_report.

Lemma capture_then_get_witness :
  ∃ fields entries,
    Utils.get_email_fs
      (run_ops ∅ (handle_message "u1" Samples.t_2024 Samples.report_message).1) "u1"
      = Ok (JObj fields) ∧
    assoc "attachments" fields = Some (JArr entries) ∧
    map base_entry entries = _attachment_metadata Samples.report_message ∧
    assoc "subject" fields = Some (JStr "Report").
Proof.
  destruct (capture_then_get ∅ "u1" Samples.t_2024 Samples.report_message
              (list_byte_of_string (Demo.render Samples.captured_record)))
    as (fields & entries & Hget & Hatt & Hbase & Hother).
  - reflexivity.
  - by vm_compute.
  - by vm_compute.
  - repeat first [ apply Forall_nil_2 | apply Forall_cons_2; [by vm_compute |] ].
  - exists fields, entries. split; [exact Hget |]. split; [exact Hatt |].
    split; [exact Hbase |].
    specialize (Hother "subject"). vm_compute in Hget. injection Hget as <-.
    by vm_compute.
Defined.

End CaptureThenGet.

(** ** More on the listing *)

Module UtilsListMore.
Import Utils Spec.

Lemma list_ascii_rev_app (s t : string) :
  list_ascii_of_string (String.rev_app s t)
  = (rev (list_ascii_of_string s) ++ list_ascii_of_string t)%list.
Proof.
  revert t. induction s as [|a s IH]; intros t; [done |].
  cbn [String.rev_app list_ascii_of_string rev]. rewrite IH.
  cbn [list_ascii_of_string]. by rewrite <- app_assoc.
Qed.

Lemma list_ascii_rev (s : string) :
  list_ascii_of_string (String.rev s) = rev (list_ascii_of_string s).
Proof. unfold String.rev. rewrite list_ascii_rev_app. cbn. by rewrite app_nil_r. Qed.

Lemma list_ascii_inj (s t : string) :
  list_ascii_of_string s = list_ascii_of_string t → s = t.
Proof.
  intros Heq. apply (f_equal string_of_list_ascii) in Heq.
  by rewrite !string_of_list_ascii_of_string in Heq.
Qed.

Lemma ends_with_spec (suf s : string) :
  ends_with suf s = true ↔ ∃ y, s = y ++ suf.
Proof.
  unfold ends_with. rewrite UtilsList.prefix_spec. split.
  - intros [post Hp]. exists (String.rev post). apply list_ascii_inj.
    apply (f_equal list_ascii_of_string) in Hp.
    rewrite SinkStore.list_ascii_app in Hp. rewrite !list_ascii_rev in Hp.
    apply (f_equal (@rev ascii)) in Hp.
    rewrite rev_involutive, rev_app_distr, rev_involutive in Hp.
    by rewrite SinkStore.list_ascii_app, list_ascii_rev.
  - intros [y ->]. exists (String.rev y). apply list_ascii_inj.
    rewrite SinkStore.list_ascii_app, !list_ascii_rev, SinkStore.list_ascii_app.
    by rewrite rev_app_distr.
Qed.

Lemma substring_0_all (s : string) :
  ∀ k, String.substring 0 (k + String.length s)%nat s = s.
Proof.
  induction s as [|a s IH]; intros k.
  - cbn [String.length]. by destruct (k + 0)%nat.
  - cbn [String.length]. rewrite Nat.add_succ_r. cbn [String.substring]. by rewrite IH.
Qed.

Lemma substring_skip (pre post : string) :
  ∀ k, String.substring (String.length pre) (k + String.length (pre ++ post))%nat
                        (pre ++ post) = post.
Proof.
  induction pre as [|a pre IH]; intros k.
  - apply substring_0_all.
  - change (String a pre ++ post) with (String a (pre ++ post)).
    cbn [String.length String.substring]. rewrite Nat.add_succ_r. apply (IH (S k)).
Qed.

Lemma glob_match_spec (dir path : string) :
  glob_match dir path = true ↔
  ∃ name, path = (dir ++ "/") ++ name ∧
          str_contains "/" name = false ∧ ends_with ".json" name = true.
Proof.
  unfold glob_match. cbn zeta. rewrite andb_true_iff, UtilsList.prefix_spec. split.
  - intros [[post ->] Hname]. exists post. split; [done |].
    pose proof (substring_skip (dir ++ "/") post 0) as Hs. cbn [Nat.add] in Hs.
    rewrite Hs in Hname. apply andb_true_iff in Hname as [Hc He].
    split; [by apply negb_true_iff | done].
  - intros (name & -> & Hc & He). split; [by exists name |].
    pose proof (substring_skip (dir ++ "/") name 0) as Hs. cbn [Nat.add] in Hs.
    by rewrite Hs, Hc, He.
Qed.

Lemma glob_match_eml (dir x : string) : glob_match dir (x ++ ".eml") = false.
Proof.
  destruct (glob_match dir (x ++ ".eml")) eqn:Hg; [|done].
  apply glob_match_spec in Hg as (name & Hpath & _ & (y & ->)%ends_with_spec).
  rewrite <- SinkStore.string_app_assoc in Hpath.
  by apply SinkStore.eml_json_tail in Hpath.
Qed.

Lemma str_contains_slash_ext (uid : string) :
  str_contains "/" uid = false → str_contains "/" (uid ++ ".json") = false.
Proof.
  induction uid as [|a uid IH]; [done |].
  change (String a uid ++ ".json") with (String a (uid ++ ".json")).
  cbn [str_contains].
  change (String.prefix "/" (String a uid))
    with (if ascii_dec "/" a then String.prefix "" uid else false).
  change (String.prefix "/" (String a (uid ++ ".json")))
    with (if ascii_dec "/" a then String.prefix "" (uid ++ ".json") else false).
  destruct (ascii_dec "/" a).
  - by destruct uid.
  - cbn [orb]. exact IH.
Qed.

Lemma traverse_raises {A B} (f : A → result B) (e : exn) (l : list A) :
  Forall (λ x, is_ok (f x) = true ∨ f x = Raise e) l →
  Exists (λ x, f x = Raise e) l →
  traverse f l = Raise e.
Proof.
  induction 1 as [|x l Hx _ IH]; intros Hex; [by apply Exists_nil in Hex |].
  cbn [traverse]. apply Exists_cons in Hex as [Hr|Hex].
  - by rewrite Hr.
  - destruct Hx as [Hok|Hr]; [|by rewrite Hr].
    destruct (f x); [|done]. cbn [bind]. by rewrite IH.
Qed.

Lemma traverse_take {A B} (f : A → result B) (l : list A) :
  ∀ n m r, (n ≤ m)%nat →
    traverse f (take m l) = Ok r → traverse f (take n l) = Ok (take n r).
Proof.
  induction l as [|x l IH]; intros n m r Hnm Hr.
  - rewrite take_nil in Hr. cbn in Hr. injection Hr as <-. by rewrite !take_nil.
  - destruct n as [|n]; [by rewrite !take_0 |]. destruct m as [|m]; [lia |].
    cbn [firstn traverse] in *. destruct (f x) as [y|]; [|done]. cbn [bind] in *.
    destruct (traverse f (take m l)) as [ys|] eqn:Hm; [|done].
    cbn [bind] in Hr. injection Hr as <-.
    rewrite (IH n m ys); [done | lia | done].
Qed.

Lemma omap_ext_Forall {A B} (f g : A → option B) (l : list A) :
  Forall (λ x, f x = g x) l → omap f l = omap g l.
Proof.
  induction 1 as [|x l Hx _ IH]; [done |]. cbn. rewrite Hx.
  change (omap f l = omap g l) in IH. by rewrite IH.
Qed.

Section General.
Context `{Runtime}.

Lemma elem_of_glob_json (s : fs) (p : string) :
  p ∈ glob_json s ↔ is_Some (s !! p) ∧ glob_match MAIL_DIR p = true.
Proof.
  unfold glob_json. rewrite (PySort.sort_by_perm String.leb).
  rewrite list_elem_of_In, filter_In, <- list_elem_of_In.
  change (map fst (map_to_list s)) with ((map_to_list s).*1).
  rewrite list_elem_of_fmap. split.
  - intros [([q x] & -> & Hin%elem_of_map_to_list) Hg]. eauto.
  - intros [[x Hx] Hg]. split; [|done]. exists (p, x).
    split; [done |]. by apply elem_of_map_to_list.
Qed.

Lemma elem_of_load_records (s : fs) (v : json) :
  v ∈ load_records s ↔ ∃ p, p ∈ glob_json s ∧ _safe_load s p = v ∧ truthy v = true.
Proof.
  unfold load_records. rewrite list_elem_of_omap. split.
  - intros (p & Hp & Hv). cbn zeta in Hv.
    destruct (truthy (_safe_load s p)) eqn:Ht; [|done]. injection Hv as <-. eauto.
  - intros (p & Hp & <- & Ht). exists p. split; [done |]. cbn zeta. by rewrite Ht.
Qed.

Lemma safe_load_present (s : fs) (p : string) :
  truthy (_safe_load s p) = true → is_Some (s !! p).
Proof. unfold _safe_load, read_bytes. destruct (s !! p); [eauto | done]. Qed.

Lemma load_records_insert_fresh (s : fs) p d :
  s !! p = None → glob_match MAIL_DIR p = false →
  load_records (<[p := d]> s) = load_records s.
Proof.
  intros Hp Hg. unfold load_records.
  assert (glob_json (<[p := d]> s) = glob_json s) as ->.
  { unfold glob_json. apply PySort.sort_by_leb_unique.
    pose proof (map_to_list_insert s p d Hp) as Hperm.
    apply (fmap_Permutation fst) in Hperm. rewrite fmap_cons in Hperm.
    cbn [fst] in Hperm.
    etrans; [apply (UtilsList.filter_perm _ _ _ Hperm) |].
    cbn [List.filter]. by rewrite Hg. }
  apply omap_ext_Forall, Forall_forall. intros q [_ Hq]%elem_of_glob_json.
  unfold _safe_load, read_bytes. rewrite lookup_insert_ne; [done |].
  intros <-. congruence.
Qed.

Lemma load_records_other_insert (s : fs) p d :
  glob_match MAIL_DIR p = false →
  load_records (<[p := d]> s) = load_records (delete p s).
Proof.
  intros Hg. rewrite <- (insert_delete_eq s).
  apply load_records_insert_fresh; [apply lookup_delete_eq | done].
Qed.

Lemma load_records_other_delete (s : fs) p :
  glob_match MAIL_DIR p = false → load_records (delete p s) = load_records s.
Proof.
  intros Hg. destruct (s !! p) as [x|] eqn:Hp; [|by rewrite delete_id].
  rewrite <- (insert_delete_id s p x Hp) at 2. symmetry.
  apply load_records_insert_fresh; [apply lookup_delete_eq | done].
Qed.

Lemma glob_match_eml_path uid : glob_match MAIL_DIR (Sink.eml_path uid) = false.
Proof. rewrite SinkStore.eml_path_stem. apply glob_match_eml. Qed.

Lemma glob_match_json_path uid :
  STORAGE_DIR = MAIL_DIR → str_contains "/" uid = false →
  glob_match MAIL_DIR (Sink.json_path uid) = true.
Proof.
  intros Hdir Huid. apply glob_match_spec. exists (uid ++ ".json").
  split; [|split].
  - rewrite SinkStore.json_path_stem. unfold stem.
    assert (String.prefix "/" uid = false) as ->.
    { destruct uid; [done |]. cbn [str_contains] in Huid.
      by apply orb_false_iff in Huid as [? _]. }
    rewrite Hdir. by rewrite !SinkStore.string_app_assoc.
  - by apply str_contains_slash_ext.
  - apply ends_with_spec. by exists uid.
Qed.

End General.

(** X12: a metadata file that holds valid JSON which is neither an
    object nor falsy (an array, a number, a string, [true]) is not
    skipped: sorting asks every loaded record for its [stored_at], so
    every listing, whatever the query and the limit, raises
    [AttributeError]. *)
Theorem list_emails_fs_non_object `{Runtime} (s : fs) (p : string) query limit :
  glob_match MAIL_DIR p = true →
  truthy (_safe_load s p) = true →
  is_obj (_safe_load s p) = false →
  list_emails_fs s query limit = Raise AttributeError.
Proof.
  intros Hg Ht Hobj. unfold list_emails_fs, sort_records.
  rewrite (traverse_raises _ AttributeError); [done | |].
  - apply Forall_forall. intros r _. destruct r; cbn; eauto.
  - apply Exists_exists. exists (_safe_load s p). split.
    + apply elem_of_load_records. exists p. split; [|done].
      apply elem_of_glob_json. split; [by apply safe_load_present | done].
    + by destruct (_safe_load s p).
Qed.

(** X13: the listing looks at nothing but the files matching [*.json]
    directly under the mail directory: creating, overwriting or removing
    any other path leaves every listing as it was. *)
Theorem list_emails_fs_ignores_other_files `{Runtime} (s : fs) p d query limit :
  glob_match MAIL_DIR p = false →
  list_emails_fs (<[p := d]> s) query limit = list_emails_fs s query limit ∧
  list_emails_fs (delete p s) query limit = list_emails_fs s query limit.
Proof.
  intros Hg. unfold list_emails_fs.
  rewrite load_records_other_insert by done.
  by rewrite load_records_other_delete.
Qed.

(** X14: the raw artifact of a capture is invisible to the listing:
    writing it changes no listing, so the store between the two writes
    of a capture, and after a capture that fails to write its metadata,
    lists as the store before. *)
Theorem list_emails_fs_ignores_raw `{Runtime} (s : fs) uid now message query limit :
  list_emails_fs (write_bytes (Sink.eml_path uid) (as_bytes message) s) query limit
    = list_emails_fs s query limit ∧
  (is_ok (Sink.handle_message uid now message).2 = false →
   list_emails_fs (Sink.run_ops s (Sink.handle_message uid now message).1) query limit
     = list_emails_fs s query limit).
Proof.
  assert (list_emails_fs (write_bytes (Sink.eml_path uid) (as_bytes message) s) query limit
          = list_emails_fs s query limit) as Hraw.
  { unfold list_emails_fs, write_bytes.
    rewrite load_records_other_insert by apply glob_match_eml_path.
    by rewrite load_records_other_delete by apply glob_match_eml_path. }
  split; [exact Hraw |]. unfold Sink.handle_message.
  destruct (json_dumps _); [done |]. intros _. exact Hraw.
Qed.

(** X15: listings with different limits agree: the listing for a limit
    is the first [max(1, limit)] items of the listing for any larger
    limit, under the same query. *)
Theorem list_emails_fs_limit_prefix `{Runtime} (s : fs) query (limit1 limit2 : Z) out2 :
  limit1 ≤ limit2 →
  list_emails_fs s query limit2 = Ok out2 →
  list_emails_fs s query limit1 = Ok (take (Z.to_nat (Z.max 1 limit1)) out2).
Proof.
  intros Hle. unfold list_emails_fs.
  destruct (sort_records _) as [recs|]; [|done]. cbn [bind].
  destruct (if str_truthy query then _ else _) as [recs'|]; [|done]. cbn [bind].
  rewrite !UtilsList.slice_to_take by lia. apply traverse_take. lia.
Qed.

(** X16: a store with no file matching [*.json] directly under the mail
    directory (an empty store, or one holding raw artifacts only) lists
    as the empty list for every query and every limit; the lower bound of
    one item on the limit invents nothing. *)
Theorem list_emails_fs_no_metadata `{Runtime} (s : fs) query limit :
  (∀ p, is_Some (s !! p) → glob_match MAIL_DIR p = false) →
  list_emails_fs s query limit = Ok [].
Proof.
  intros Hnone.
  assert (glob_json s = []) as Hglob.
  { apply elem_of_nil_inv. intros p [Hp Hg]%elem_of_glob_json.
    rewrite (Hnone p Hp) in Hg. discriminate. }
  unfold list_emails_fs, load_records. rewrite Hglob. cbn.
  destruct (str_truthy query); cbn; rewrite UtilsList.slice_to_take by lia;
    by rewrite take_nil.
Qed.

(** X17: with both sides on one directory and an id without a slash, a
    capture that completes shows in the listing: when every loaded record
    is an object and the limit covers them all, the listing without a
    query contains the summary of the new record, which carries the id of
    the capture. *)
Theorem capture_then_list `{Runtime} (s : fs) uid now message txt limit :
  STORAGE_DIR = MAIL_DIR →
  str_contains "/" uid = false →
  json_dumps (Sink.record_of uid now (parsebytes (as_bytes message))) = Ok txt →
  json_loads txt = Ok (Sink.record_of uid now (parsebytes (as_bytes message))) →
  Forall (λ r, is_obj r = true)
         (load_records (Sink.run_ops s (Sink.handle_message uid now message).1)) →
  Z.of_nat (length (load_records (Sink.run_ops s (Sink.handle_message uid now message).1)))
    ≤ Z.max 1 limit →
  ∃ out,
    list_emails_fs (Sink.run_ops s (Sink.handle_message uid now message).1) None limit
      = Ok out ∧
    summary_of (Sink.record_of uid now (parsebytes (as_bytes message))) ∈ out ∧
    field "id" (summary_of (Sink.record_of uid now (parsebytes (as_bytes message))))
      = JStr uid.
Proof.
  intros Hdir Huid Hdumps Hloads Hobj Hlen.
  destruct (CaptureThenGet.record_of_fields uid now (parsebytes (as_bytes message)))
    as (fields0 & Hrec & Hraw & _).
  assert (Sink.run_ops s (Sink.handle_message uid now message).1 !! Sink.json_path uid
          = Some (File txt)) as Hj.
  { unfold Sink.handle_message. cbn zeta. rewrite Hdumps. cbn. unfold write_bytes.
    apply lookup_insert_eq. }
  eexists. split; [by apply UtilsList.list_emails_fs_eq |]. split.
  - unfold selected. cbn [str_truthy]. rewrite take_ge.
    2:{ rewrite (PySort.sort_by_perm newest_first). lia. }
    apply list_elem_of_fmap. eexists. split; [reflexivity |].
    rewrite (PySort.sort_by_perm newest_first).
    apply elem_of_load_records. exists (Sink.json_path uid). split; [|split].
    + apply elem_of_glob_json. split; [rewrite Hj; eauto |].
      by apply glob_match_json_path.
    + unfold _safe_load, read_bytes. rewrite Hj. cbn [bind]. by rewrite Hloads.
    + rewrite Hrec. destruct fields0; [discriminate Hraw | done].
  - unfold Sink.record_of. by destruct (Sink._best_effort_bodies _).
Qed.

#[local] Existing Instance Samples.rt_report.

(** C6 (counterexample): next to [m1], whose subject contains the query,
    the store holds a record whose subject is the number 5.  Both records
    are loaded and the listing without a query returns both, but the
    listing with the query raises [AttributeError] instead of returning
    the matching record. *)
Lemma list_emails_fs_query_ill_typed :
  load_records Samples.store_number_subject = [Samples.rec1; Samples.rec_number_subject] ∧
  hit "weekly report" Samples.rec1 = true ∧
  list_emails_fs Samples.store_number_subject None 50
    = Ok [summary_of Samples.rec1; summary_of Samples.rec_number_subject] ∧
  list_emails_fs Samples.store_number_subject (Some "weekly report") 50
    = Raise AttributeError ∧
  ¬ (∃ out, list_emails_fs Samples.store_number_subject (Some "weekly report") 50 = Ok out).
Proof.
  split; [by vm_compute |]. split; [by vm_compute |]. split; [by vm_compute |].
  split; [by vm_compute |]. intros [out Hout]. vm_compute in Hout. discriminate.
Qed.

Lemma list_emails_fs_non_object_witness :
  list_emails_fs Samples.store_with_array (Some "report") 10 = Raise AttributeError.
Proof.
  apply (list_emails_fs_non_object Samples.store_with_array "/srv/mcp_mail/x.json");
    by vm_compute.
Defined.

Lemma list_emails_fs_ignores_other_files_witness :
  list_emails_fs (<["/srv/mcp_mail/notes.txt" := File []]> Samples.store_raw_missing) None 50
    = list_emails_fs Samples.store_raw_missing None 50.
Proof.
  apply (list_emails_fs_ignores_other_files Samples.store_raw_missing
           "/srv/mcp_mail/notes.txt" (File []) None 50).
  by vm_compute.
Defined.

Lemma list_emails_fs_limit_prefix_witness :
  list_emails_fs Samples.store_two_stamps None 1
    = Ok (take 1 [ summary_of Samples.rec_bad_stamp; summary_of Samples.rec_1969 ]).
Proof.
  apply (list_emails_fs_limit_prefix Samples.store_two_stamps None 1 2); [lia |].
  by vm_compute.
Defined.

Lemma list_emails_fs_no_metadata_witness :
  list_emails_fs Samples.store_raw_only (Some "report") 0 = Ok [].
Proof.
  apply list_emails_fs_no_metadata.
  intros p [x Hx]. unfold Samples.store_raw_only in Hx.
  apply lookup_singleton_Some in Hx as [<- _]. by vm_compute.
Defined.

Lemma capture_then_list_witness :
  ∃ out,
    list_emails_fs
      (Sink.run_ops Samples.store_raw_missing
         (Sink.handle_message "u1" Samples.t_2024 Samples.report_message).1) None 50
      = Ok out ∧
    summary_of (Sink.record_of "u1" Samples.t_2024
                  (parsebytes (as_bytes Samples.report_message))) ∈ out ∧
    field "id" (summary_of (Sink.record_of "u1" Samples.t_2024
                  (parsebytes (as_bytes Samples.report_message)))) = JStr "u1".
Proof.
  apply (capture_then_list Samples.store_raw_missing "u1" Samples.t_2024
           Samples.report_message
           (list_byte_of_string (Demo.render Samples.captured_record)) 50).
  - reflexivity.
  - by vm_compute.
  - by vm_compute.
  - by vm_compute.
  - vm_compute. repeat constructor.
  - by vm_compute.
Defined.

End UtilsListMore.

(** ** The outgoing message, and records that are no objects *)

Module UtilsMore.
Import Utils Spec.

(** X18: every message [send_email_smtp] hands over has a plain text:
    the given text when there is one, else a fixed notice when there is
    HTML, else the empty text; it has an HTML alternative exactly when
    HTML is given, and a Cc header exactly when there are Cc addresses.
    Blind copies are blind: the Bcc addresses reach the recipient list
    only, so the same message is handed over whatever they are. *)
Theorem send_email_smtp_message `{Runtime} (s : fs) (net : network)
    date mid from_addr to_addrs subject text_body html_body cc_addrs bcc_addrs paths :
  let out := send_email_smtp s net date mid from_addr to_addrs subject text_body
               html_body cc_addrs bcc_addrs paths in
  (∀ msg f rc, SmtpSend msg f rc ∈ out.2 →
     body_text (msg_body msg)
       = (if str_truthy text_body then default "" text_body
          else if str_truthy html_body then "This email contains HTML content."
          else "") ∧
     body_html (msg_body msg) = (if str_truthy html_body then html_body else None) ∧
     msg_cc msg = (if list_truthy cc_addrs then Some (join ", " (default [] cc_addrs))
                   else None) ∧
     msg_from msg = from_addr ∧ msg_subject msg = subject ∧ msg_date msg = date) ∧
  (∀ bcc' msg f rc, SmtpSend msg f rc ∈ out.2 →
     ∃ rc', SmtpSend msg f rc' ∈
              (send_email_smtp s net date mid from_addr to_addrs subject text_body
                 html_body cc_addrs bcc' paths).2).
Proof.
  cbn zeta. unfold send_email_smtp.
  destruct (set_headers_and_body _ _ _ _ _ _ _ _) as [[]|e]; cbn [bind].
  2:{ split; [intros msg f rc Hin | intros bcc' msg f rc Hin];
        by apply elem_of_nil in Hin. }
  destruct (_attach_files s [] paths) as [atts|e].
  2:{ split; [intros msg f rc Hin | intros bcc' msg f rc Hin];
        by apply elem_of_nil in Hin. }
  destruct (connect net "127.0.0.1" 1025) as [[]|e].
  2:{ split; [intros msg f rc Hin | intros bcc' msg f rc Hin];
        by apply list_elem_of_singleton in Hin. }
  split.
  - intros msg f rc Hin.
    destruct (send_message net _ from_addr _) as [[]|?], (quit net) as [[]|?];
      cbn [snd] in Hin;
      (apply elem_of_cons in Hin as [Hin|Hin]; [discriminate Hin |]);
      (apply elem_of_cons in Hin as [Hin|Hin];
         [|by apply list_elem_of_singleton in Hin]);
      injection Hin as -> -> ->; cbn;
      (split; [|split; [|by repeat split]]);
      destruct text_body as [[|? ?]|], html_body as [[|? ?]|]; done.
  - intros bcc' msg f rc Hin.
    destruct (send_message net _ from_addr _) as [[]|?] in Hin;
      destruct (quit net) as [[]|?];
      cbn [snd] in Hin;
      (apply elem_of_cons in Hin as [Hin|Hin]; [discriminate Hin |]);
      (apply elem_of_cons in Hin as [Hin|Hin];
         [|by apply list_elem_of_singleton in Hin]);
      injection Hin as -> -> ->;
      eexists; destruct (send_message net _ from_addr _) as [[]|?]; cbn [snd];
      right; left; reflexivity.
Qed.

(** X19: a metadata file that holds valid JSON other than null and other
    than an object (an array, a number, a string, a boolean) makes
    [get_email_fs] raise [AttributeError]: it is neither reported as an
    error object nor returned. *)
Theorem get_email_fs_non_object `{Runtime} (s : fs) (email_id : string) :
  is_Some (s !! path_join MAIL_DIR (email_id ++ ".json")) →
  _safe_load s (path_join MAIL_DIR (email_id ++ ".json")) ≠ JNull →
  is_obj (_safe_load s (path_join MAIL_DIR (email_id ++ ".json"))) = false →
  get_email_fs s email_id = Raise AttributeError.
Proof.
  intros Hex Hnull Hobj. unfold get_email_fs, path_exists.
  rewrite bool_decide_eq_true_2 by done. cbn [negb].
  by destruct (_safe_load s _).
Qed.

#[local] Existing Instance Samples.rt_report.

Lemma get_email_fs_non_object_witness :
  get_email_fs Samples.store_with_array "x" = Raise AttributeError.
Proof.
  apply (get_email_fs_non_object Samples.store_with_array "x").
  - vm_compute. eauto.
  - by vm_compute.
  - by vm_compute.
Defined.

End UtilsMore.
